(** * Realtime Speech-to-Speech Translation server: a shallow embedding

    This file embeds the three Python modules of the server
    ([server/models/speech_recognition.py], [server/models/text_to_speech.py]
    and [server/server.py]) and proves properties of the pipeline.

    Modelling choices:
    - sockets (and thus client identities) are natural numbers; [None] is
      [option socket];
    - time stamps are [Z] milliseconds; [timedelta(seconds=1)] is [1000];
    - the black-box engines (Whisper, SpeechT5) are functions passed in as
      arguments, their failure being part of their result;
    - the callbacks and [console.log] are recorded as a list of events;
    - a Python [str] is a [string] of code points [0] to [255] (Latin-1). *)

From Stdlib Require Import List String Ascii ZArith Bool Lia.
Import ListNotations.
Open Scope string_scope.
Open Scope Z_scope.

Definition socket := nat.
Definition bytes := list Byte.byte.

(** ** Python helpers *)

(** Truthiness of a Python [str]. *)
Definition str_truthy (s : string) : bool :=
  match s with EmptyString => false | _ => true end.

(** Truthiness of an optional socket ([None] is falsy, a socket is truthy). *)
Definition opt_truthy {A} (o : option A) : bool :=
  match o with Some _ => true | None => false end.

(** [!=] between a socket and an optional socket. *)
Definition sock_neq (c : socket) (o : option socket) : bool :=
  match o with Some c' => negb (Nat.eqb c c') | None => true end.

(** Whitespace as [str.strip] sees it ([str.isspace]), on the code points
    a [string] here can hold ([0] to [255], read as Latin-1): tab to
    carriage return, the separators [\x1c] to [\x1f], space, [\x85]
    and [\xa0]. *)
Definition is_space (a : ascii) : bool :=
  match a with
  | "009"%char | "010"%char | "011"%char | "012"%char | "013"%char
  | "028"%char | "029"%char | "030"%char | "031"%char | " "%char
  | "133"%char | "160"%char => true
  | _ => false
  end.

Fixpoint lstrip_chars (l : list ascii) : list ascii :=
  match l with
  | a :: l' => if is_space a then lstrip_chars l' else l
  | [] => []
  end.

(** [str.strip()]. *)
Definition strip (s : string) : string :=
  string_of_list_ascii
    (rev (lstrip_chars (rev (lstrip_chars (list_ascii_of_string s))))).

(** ** speech_recognition.py: [SpeechRecognitionModel] *)
Module SpeechRecognition.

(** [self.phrase_timeout = 1], compared through [timedelta(seconds=1)]. *)
Definition phrase_timeout : Z := 1000.

(** The mutable fields the worker thread reads and writes. [phrase_time]
    is always a [datetime] (never falsy), so it is a plain time stamp. *)
Record state := mkState {
  phrase_time : Z;
  last_sample : bytes;
  recent_transcription : string;
  current_client : option socket
}.

(** [__init__] at time [t0]. *)
Definition init (t0 : Z) : state := mkState t0 [] "" None.

(** What the worker observes: log lines and the two callbacks. *)
Inductive event :=
| Log (msg : string)
| Generation (add : bool) (text : string) (transcribe_time : Z)
| Final (text : string) (client : option socket).

(** Result of the [try] block's call into Whisper (audio conversion and
    [self.audio_model.transcribe]): the raw text and the elapsed time, or
    the exception raised. *)
Inductive engine_result :=
| EngText (raw : string) (elapsed : Z)
| EngRaise (err : string).

Definition set_phrase_time (t : Z) (s : state) : state :=
  mkState t (last_sample s) (recent_transcription s) (current_client s).
Definition set_last_sample (b : bytes) (s : state) : state :=
  mkState (phrase_time s) b (recent_transcription s) (current_client s).
Definition set_recent (r : string) (s : state) : state :=
  mkState (phrase_time s) (last_sample s) r (current_client s).
Definition set_client (c : option socket) (s : state) : state :=
  mkState (phrase_time s) (last_sample s) (recent_transcription s) c.

(** [__update_phrase_time__(current_time)]: returns [phrase_complete]. *)
Definition update_phrase_time (current_time : Z) (s : state) : bool * state :=
  if current_time - phrase_time s >? phrase_timeout then
    (true, set_last_sample [] (set_phrase_time current_time s))
  else (false, s).

(** [__flush_last_phrase__(current_time)]. *)
Definition flush_last_phrase (current_time : Z) (s : state) : state * list event :=
  if current_time - phrase_time s >? phrase_timeout then
    if str_truthy (recent_transcription s) && opt_truthy (current_client s) then
      (set_last_sample [] (set_phrase_time current_time (set_recent "" s)),
       [Log ("Flush " ++ recent_transcription s);
        Final (recent_transcription s) (current_client s)])
    else (s, [])
  else (s, []).

(** [__concatenate_new_audio__()]: drains the queue contents [q].
    [tnow] is the value [datetime.utcnow()] returns during the drain. *)
Fixpoint concatenate_new_audio (tnow : Z) (q : list (socket * bytes)) (s : state)
  : state * list event :=
  match q with
  | [] => (s, [])
  | (client, data) :: q' =>
      let '(s1, ev1) :=
        if sock_neq client (current_client s) then
          (set_last_sample [] (set_phrase_time tnow (set_recent "" s)),
           [Log ("Flush " ++ recent_transcription s);
            Final (recent_transcription s) (current_client s)])
        else (s, []) in
      let s2 := set_client (Some client) (set_last_sample (last_sample s1 ++ data)%list s1) in
      let '(s3, ev3) := concatenate_new_audio tnow q' s2 in
      (s3, (ev1 ++ ev3)%list)
  end.

(** [__transcribe_audio__(sample_rate, sample_width, phrase_complete)];
    [eng] is the engine applied to the whole of [self.last_sample]. *)
Definition transcribe_audio (eng : bytes -> engine_result) (phrase_complete : bool)
  (s : state) : state * list event :=
  match eng (last_sample s) with
  | EngRaise e => (s, [Log ("Error during transcription: " ++ e)])
  | EngText raw elapsed =>
      let text := strip raw in
      if str_truthy text then
        let fin :=
          if phrase_complete && str_truthy (recent_transcription s)
             && opt_truthy (current_client s)
          then [Log ("Phrase complete: " ++ recent_transcription s);
                Final (recent_transcription s) (current_client s)]
          else [] in
        (set_recent text s, Generation phrase_complete text elapsed :: fin)
      else (s, [])
  end.

(** The inputs of one iteration of [__worker__]: the [now] it reads, the
    clock reading during the drain, the queue contents and the engine. *)
Record tick_input := mkTick {
  t_now : Z;
  t_drain : Z;
  t_queue : list (socket * bytes);
  t_engine : bytes -> engine_result
}.

(** One iteration of the [while not self._kill_thread] loop of [__worker__]. *)
Definition tick (i : tick_input) (s : state) : state * list event :=
  let '(s1, e1) := flush_last_phrase (t_now i) s in
  match t_queue i with
  | [] => (s1, e1)
  | _ :: _ =>
      let '(phrase_complete, s2) := update_phrase_time (t_now i) s1 in
      let '(s3, e3) := concatenate_new_audio (t_drain i) (t_queue i) s2 in
      let '(s4, e4) := transcribe_audio (t_engine i) phrase_complete s3 in
      (s4, (e1 ++ e3 ++ e4)%list)
  end.

(** [__worker__] over a finite sequence of iterations. *)
Fixpoint worker (is : list tick_input) (s : state) : state * list event :=
  match is with
  | [] => (s, [])
  | i :: is' =>
      let '(s1, e1) := tick i s in
      let '(s2, e2) := worker is' s1 in
      (s2, (e1 ++ e2)%list)
  end.

(** The [final_callback] calls among the events. *)
Fixpoint finals (es : list event) : list (string * option socket) :=
  match es with
  | [] => []
  | Final t c :: es' => (t, c) :: finals es'
  | _ :: es' => finals es'
  end.

End SpeechRecognition.

(** ** Exceptions and outcomes shared by the remaining modules *)

Inductive exc :=
| AttributeError (msg : string)
| ValueError (msg : string)
| ConnectionResetError (msg : string)
| OSError (msg : string)
| Exception (msg : string).

(** A Python call returns, raises, or blocks for ever. *)
Inductive outcome (A : Type) :=
| Ok (a : A)
| Raised (e : exc)
| Blocked.
Arguments Ok {A} a.
Arguments Raised {A} e.
Arguments Blocked {A}.

(** [queue.Queue(maxsize)].put(x): blocks when a positive [maxsize] is reached. *)
Definition queue_put {A} (maxsize : nat) (q : list A) (x : A) : outcome (list A) :=
  if (Nat.ltb 0 maxsize && Nat.leb maxsize (List.length q))%bool then Blocked
  else Ok (q ++ [x])%list.

(** [list.remove(x)]: removes the first occurrence; [None] stands for the
    [ValueError] raised when [x] is absent. *)
Fixpoint list_remove (x : socket) (l : list socket) : option (list socket) :=
  match l with
  | [] => None
  | y :: l' =>
      if Nat.eqb x y then Some l'
      else option_map (cons y) (list_remove x l')
  end.

(** [x in l] on sockets. *)
Definition list_mem (x : socket) (l : list socket) : bool :=
  existsb (Nat.eqb x) l.

(** ** text_to_speech.py: [TextToSpeechModel] *)
Module TextToSpeech.
Section TTS.

(** The voice profile (speaker embedding tensor) and the synthesised audio
    tensor. [generate_speech text e] stands for the processor, SpeechT5's
    [generate_speech] and its vocoder run on [text] with embeddings [e]:
    the audio, or the exception raised (or a call that never returns). *)
Variables (Emb Audio : Type).
Variable generate_speech : string -> Emb -> outcome Audio.

(** [self.callback_function], run by the worker thread on the state [CB]
    it reads and writes: its printed lines and the new state, or the
    exception that escapes it. *)
Variable CB : Type.
Variable callback_function : Audio -> option socket -> CB -> list string * outcome CB.

(** [self.speaker_embeddings]: [__init__] never assigns it, so before
    [load_speaker_embeddings] the attribute does not exist; [EmbNone] is
    the [None] value the guard of [synthesise] tests for. *)
Inductive embeddings :=
| EmbUnset
| EmbNone
| EmbLoaded (e : Emb).

Record state := mkState {
  task_queue : list (option socket * string);
  speaker_embeddings : embeddings
}.

(** [self.task_queue = Queue()]: [maxsize] defaults to [0], no bound. *)
Definition task_queue_maxsize : nat := 0.

(** State right after [__init__]. *)
Definition init : state := mkState [] EmbUnset.

(** [load_speaker_embeddings()], [e] being the xvector it reads. *)
Definition load_speaker_embeddings (e : Emb) (s : state) : state :=
  mkState (task_queue s) (EmbLoaded e).

(** [synthesise(text, client_socket)]: the printed lines and the outcome. *)
Definition synthesise (text : string) (client : option socket) (s : state)
  : list string * outcome state :=
  match speaker_embeddings s with
  | EmbUnset =>
      ([], Raised (AttributeError
             "'TextToSpeechModel' object has no attribute 'speaker_embeddings'"))
  | EmbNone =>
      ([], Raised (Exception "TextToSpeech: Load speaker embeddings before synthesizing"))
  | EmbLoaded e =>
      match queue_put task_queue_maxsize (task_queue s) (client, text) with
      | Ok q => ([], Ok (mkState q (EmbLoaded e)))
      | Raised x => ([], Raised x)
      | Blocked => ([], Blocked)
      end
  end.

(** [synthesise_blocking(text)] (the printed time is left out): the
    [speaker_embeddings] attribute is read before SpeechT5 runs, and the
    line is printed only once the audio is there. The processor runs
    before the attribute is read; its failures are counted with the
    engine's, which only changes which error is raised when both fail on
    a profile that is not loaded, and no task is ever queued then
    ([run_keeps_ready]). *)
Definition synthesise_blocking (text : string) (s : state) : list string * outcome Audio :=
  match speaker_embeddings s with
  | EmbLoaded e =>
      match generate_speech text e with
      | Ok audio => (["synthesize : " ++ text], Ok audio)
      | Raised x => ([], Raised x)
      | Blocked => ([], Blocked)
      end
  | EmbUnset =>
      ([], Raised (AttributeError
             "'TextToSpeechModel' object has no attribute 'speaker_embeddings'"))
  | EmbNone => ([], Raised (AttributeError "'NoneType' object has no attribute 'to'"))
  end.

(** One iteration of the [while] loop of [worker()]: [get()] takes the
    first task, [synthesise_blocking] makes its audio and
    [callback_function(audio, client)] runs; nothing is caught, so an
    exception of either ends the thread ([task_done()] has no effect
    here). *)
Definition worker_step (s : state) (cb : CB)
  : list string * outcome (state * CB) :=
  match task_queue s with
  | [] => ([], Ok (s, cb))
  | (client, text) :: q =>
      let s1 := mkState q (speaker_embeddings s) in
      match synthesise_blocking text s1 with
      | (l1, Ok audio) =>
          match callback_function audio client cb with
          | (l2, Ok cb') => ((l1 ++ l2)%list, Ok (s1, cb'))
          | (l2, Raised x) => ((l1 ++ l2)%list, Raised x)
          | (l2, Blocked) => ((l1 ++ l2)%list, Blocked)
          end
      | (l1, Raised x) => (l1, Raised x)
      | (l1, Blocked) => (l1, Blocked)
      end
  end.

(** The model, the state the callback acts on, and whether the worker
    thread is still running. *)
Record world := mkWorld {
  model : state;
  cb_state : CB;
  alive : bool
}.

(** Right after [__init__]: the thread has been started. *)
Definition start (cb : CB) : world := mkWorld init cb true.

(** Operations other threads perform on the model, and an iteration of
    the worker thread. *)
Inductive op :=
| OpLoad (e : Emb)
| OpSynthesise (client : option socket) (text : string)
| OpWorker.

(** The world reached by a sequence of operations. A [synthesise] call
    that raises leaves the model as it was. A worker iteration runs only
    while the thread is alive; if it raises (or never returns) the task it
    took off the queue is lost and the thread is gone. *)
Fixpoint run (ops : list op) (w : world) : world :=
  match ops with
  | [] => w
  | o :: ops' =>
      let w1 :=
        match o with
        | OpLoad e => mkWorld (load_speaker_embeddings e (model w)) (cb_state w) (alive w)
        | OpSynthesise c t =>
            match synthesise t c (model w) with
            | (_, Ok s') => mkWorld s' (cb_state w) (alive w)
            | _ => w
            end
        | OpWorker =>
            if alive w then
              match worker_step (model w) (cb_state w) with
              | (_, Ok (s', cb')) => mkWorld s' cb' true
              | _ => mkWorld (mkState (tl (task_queue (model w)))
                                      (speaker_embeddings (model w)))
                             (cb_state w) false
              end
            else w
        end in
      run ops' w1
  end.

End TTS.
Arguments EmbUnset {Emb}.
Arguments EmbNone {Emb}.
Arguments EmbLoaded {Emb} e.
Arguments OpWorker {Emb}.
Arguments OpLoad {Emb} e.
Arguments OpSynthesise {Emb} client text.
Arguments mkState {Emb} task_queue speaker_embeddings.
Arguments task_queue {Emb} s.
Arguments speaker_embeddings {Emb} s.
Arguments init {Emb}.
Arguments load_speaker_embeddings {Emb} e s.
Arguments synthesise {Emb} text client s.
Arguments synthesise_blocking {Emb Audio} generate_speech text s.
Arguments worker_step {Emb Audio} generate_speech {CB} callback_function s cb.
Arguments mkWorld {Emb CB} model cb_state alive.
Arguments model {Emb CB} w.
Arguments cb_state {Emb CB} w.
Arguments alive {Emb CB} w.
Arguments start {Emb CB} cb.
Arguments run {Emb Audio} generate_speech {CB} callback_function ops w.
End TextToSpeech.

(** ** server.py: [AudioSocketServer] *)
Module Server.
Section Server.

(** The synthesised audio tensor and [audio.numpy().tobytes()]. *)
Variables (Audio : Type) (tobytes : Audio -> bytes).

Definition ValueError_remove : exc := ValueError "list.remove(x): x not in list".

(** What [recv] finds on a readable client socket: the bytes pending in
    the kernel buffer ([[]] once the peer closed the connection in order),
    or a reset connection. *)
Inductive readiness :=
| Pending (d : bytes)
| Reset.

(** [s.recv(bufsize)]: at most [bufsize] of the pending bytes. *)
Definition recv (bufsize : nat) (r : readiness) : outcome bytes :=
  match r with
  | Pending d => Ok (firstn bufsize d)
  | Reset => Raised (ConnectionResetError "Connection reset by peer")
  end.

(** [self.read_list] and [self.data_queue] (a [Queue()] without bound). *)
Record mux_state := mkMux {
  read_list : list socket;
  data_queue : list (socket * bytes)
}.

(** [self.read_list.remove(s)] followed by a log line. *)
Definition drop_socket (s : socket) (msg : string) (m : mux_state)
  : list string * outcome mux_state :=
  match list_remove s (read_list m) with
  | Some rl => ([msg], Ok (mkMux rl (data_queue m)))
  | None => ([], Raised ValueError_remove)
  end.

(** The [else] branch of the loop in [start()], for a readable client
    socket [s]. *)
Definition handle_client_readable (s : socket) (r : readiness) (m : mux_state)
  : list string * outcome mux_state :=
  match recv 4096 r with
  | Ok data =>
      match data with
      | _ :: _ =>
          match queue_put 0 (data_queue m) (s, data) with
          | Ok q => ([], Ok (mkMux (read_list m) q))
          | Raised e => ([], Raised e)
          | Blocked => ([], Blocked)
          end
      | [] => drop_socket s "Disconnection from" m
      end
  | Raised (ConnectionResetError _) => drop_socket s "Client crashed from" m
  | Raised e => ([], Raised e)
  | Blocked => ([], Blocked)
  end.

(** What [client_socket.sendall(payload)] does: returns once everything
    is sent, or raises. *)
Inductive send_result :=
| SendOk
| SendRaise (e : exc).

(** Effects of one call of [stream_numpy_array_audio]: the read list
    after the call, the bytes written, the log lines and the exception
    that escapes the call, if any. *)
Record dispatch := mkDispatch {
  d_read_list : list socket;
  d_sent : list (socket * bytes);
  d_logs : list string;
  d_raised : option exc
}.

(** [stream_numpy_array_audio(audio, client_socket)]. *)
Definition stream_numpy_array_audio (audio : Audio) (client : option socket)
  (rl : list socket) (sendall : socket -> bytes -> send_result) : dispatch :=
  match client with
  | None => mkDispatch rl [] ["Error: client_socket is None"] None
  | Some cs =>
      let payload := tobytes audio in
      match sendall cs payload with
      | SendOk => mkDispatch rl [(cs, payload)] [] None
      | SendRaise (ConnectionResetError m) =>
          let logs := ["Error sending audio to client: " ++ m] in
          if list_mem cs rl then
            match list_remove cs rl with
            | Some rl' => mkDispatch rl' [] logs None
            | None => mkDispatch rl [] logs (Some ValueError_remove)
            end
          else mkDispatch rl [] logs None
      | SendRaise e => mkDispatch rl [] [] (Some e)
      end
  end.

(** [handle_synthesize(audio, client_socket)], the TTS callback. *)
Definition handle_synthesize (audio : Audio) (client : option socket)
  (rl : list socket) (sendall : socket -> bytes -> send_result) : dispatch :=
  stream_numpy_array_audio audio client rl sendall.

(** What [handle_synthesize] reads and writes when the synthesis worker
    calls it: [self.read_list] and the bytes written to each socket. *)
Record out_state := mkOut {
  o_read_list : list socket;
  o_sent : list (socket * bytes)
}.

(** [handle_synthesize] as the [callback_function] of the synthesis
    worker: its printed lines and the new [out_state], or the exception
    that escapes it. *)
Definition synthesize_callback (sendall : socket -> bytes -> send_result)
  (audio : Audio) (client : option socket) (o : out_state)
  : list string * outcome out_state :=
  let d := handle_synthesize audio client (o_read_list o) sendall in
  match d_raised d with
  | None => (d_logs d, Ok (mkOut (d_read_list d) (o_sent o ++ d_sent d)%list))
  | Some x => (d_logs d, Raised x)
  end.

End Server.
Arguments stream_numpy_array_audio {Audio} tobytes audio client rl sendall.
Arguments handle_synthesize {Audio} tobytes audio client rl sendall.
Arguments synthesize_callback {Audio} tobytes sendall audio client o.

(** [handle_transcription(packet, client_socket)], the final callback of
    the speech recognition model, feeding the TTS model. *)
Definition handle_transcription {Emb} (packet : string) (client : option socket)
  (tts : TextToSpeech.state Emb) : list string * outcome (TextToSpeech.state Emb) :=
  let '(logs, r) := TextToSpeech.synthesise packet client tts in
  (("Added " ++ packet ++ " to synthesize task queue") :: logs, r).

End Server.

(** ** server.py: one pass of the [select] loop of [start()] *)
Module ServerLoop.
Import Server.

(** One socket reported readable by [select.select]: the socket, what
    [self.serversocket.accept()] returns if it is the listening socket,
    and what [recv] finds on it otherwise. *)
Record ready := mkReady {
  r_sock : socket;
  r_accepted : socket;
  r_state : readiness
}.

(** The body of [for s in readable:], [server] being [self.serversocket]. *)
Definition handle_readable (server : socket) (x : ready) (m : mux_state)
  : list string * outcome mux_state :=
  if Nat.eqb (r_sock x) server then
    (["Connection from"], Ok (mkMux (read_list m ++ [r_accepted x])%list (data_queue m)))
  else handle_client_readable (r_sock x) (r_state x) m.

(** The whole [for s in readable:] loop; an exception leaves it. *)
Fixpoint select_round (server : socket) (rs : list ready) (m : mux_state)
  : list string * outcome mux_state :=
  match rs with
  | [] => ([], Ok m)
  | x :: rs' =>
      match handle_readable server x m with
      | (l1, Ok m1) =>
          let '(l2, r) := select_round server rs' m1 in ((l1 ++ l2)%list, r)
      | (l1, Raised e) => (l1, Raised e)
      | (l1, Blocked) => (l1, Blocked)
      end
  end.

End ServerLoop.

(** ** Counting the client changes of a drain *)

(** How many times [__concatenate_new_audio__] takes its [client !=
    self.current_client] branch on [q], [prev] being the owner before. *)
Fixpoint switches (prev : option socket) (q : list (socket * bytes)) : nat :=
  match q with
  | [] => O
  | (c, _) :: q' => ((if sock_neq c prev then 1 else 0) + switches (Some c) q')%nat
  end.

(** ** Concrete scenarios *)
Module Scenario.
Import SpeechRecognition.

(** Client [1] sends one byte at [t = 0] and another at [t = 1000], the
    worker iterating every 50 ms; Whisper always returns ["hi"]. *)
Definition gap_tick (k : nat) : tick_input :=
  mkTick (50 * Z.of_nat k) (50 * Z.of_nat k)
    (if (Nat.eqb k 0 || Nat.eqb k 20)%bool then [(1%nat, [Byte.x00])] else [])
    (fun _ => EngText " hi " 120).

(** A Whisper call that raises. *)
Definition failing_engine : bytes -> engine_result :=
  fun _ => EngRaise "cuda out of memory".

End Scenario.

Import SpeechRecognition.

Example strip_ex : strip "  hello world  " = "hello world".
Proof. reflexivity. Qed.

Example gap_scenario_ex :
  finals (snd (worker (map Scenario.gap_tick (seq 0 21)) (init 0))) = [("", None)].
Proof. vm_compute. reflexivity. Qed.

(** ** Segmentation worker: helper lemmas *)

Open Scope list_scope.

Lemma str_truthy_false (r : string) : str_truthy r = false <-> r = "".
Proof. destruct r; simpl; split; congruence. Qed.

Lemma opt_truthy_false {A} (o : option A) : opt_truthy o = false <-> o = None.
Proof. destruct o; simpl; split; congruence. Qed.

Lemma finals_app (e1 e2 : list event) : finals (e1 ++ e2) = finals e1 ++ finals e2.
Proof.
  induction e1 as [|[] e1 IH]; simpl; try rewrite IH; reflexivity.
Qed.

(** A state with no pending transcription stays put through iterations
    in which nothing was queued. *)
Lemma worker_idle_quiet (ts : list tick_input) (s : state) :
  recent_transcription s = "" ->
  Forall (fun i => t_queue i = []) ts ->
  worker ts s = (s, []).
Proof.
  intros Hr Hts. induction Hts as [|i ts Hi Hts IH]; [reflexivity|].
  simpl. unfold tick, flush_last_phrase. rewrite Hr, Hi. simpl.
  destruct (t_now i - phrase_time s >? phrase_timeout); rewrite IH; reflexivity.
Qed.

(** Draining chunks that all come from the current owner only appends. *)
Lemma concatenate_same_client (tnow : Z) (c : socket) (q : list (socket * bytes))
  (s : state) :
  current_client s = Some c ->
  Forall (fun p => fst p = c) q ->
  concatenate_new_audio tnow q s =
    (match q with
     | [] => s
     | _ :: _ => set_client (Some c)
                   (set_last_sample (last_sample s ++ List.concat (map snd q))%list s)
     end, []).
Proof.
  revert s. induction q as [|[c' d] q IH]; intros s Hc Hq; [reflexivity|].
  apply Forall_cons_iff in Hq as [Hp Hq']; simpl in Hp; subst c'.
  simpl. rewrite Hc. simpl. rewrite Nat.eqb_refl. simpl.
  rewrite IH by (simpl; auto). destruct q as [|p q].
  - destruct s; simpl in *; subst; rewrite app_nil_r; reflexivity.
  - destruct s; simpl in *; subst. unfold set_client, set_last_sample; simpl.
    rewrite !app_assoc. reflexivity.
Qed.

(** A raising Whisper call leaves the state as it was and only logs. *)
Lemma transcribe_raise (eng : bytes -> engine_result) (pc : bool) (s : state)
  (msg : string) :
  eng (last_sample s) = EngRaise msg ->
  transcribe_audio eng pc s = (s, [Log ("Error during transcription: " ++ msg)%string]).
Proof. intros H. unfold transcribe_audio. rewrite H. reflexivity. Qed.

(** With [phrase_complete = false] a transcription finalizes nothing, and
    no transcription touches the buffer, the timer or the owner. *)
Lemma transcribe_frame (eng : bytes -> engine_result) (pc : bool) (s : state) :
  phrase_time (fst (transcribe_audio eng pc s)) = phrase_time s /\
  last_sample (fst (transcribe_audio eng pc s)) = last_sample s /\
  current_client (fst (transcribe_audio eng pc s)) = current_client s /\
  (pc = false -> finals (snd (transcribe_audio eng pc s)) = []).
Proof.
  unfold transcribe_audio. destruct (eng (last_sample s)) as [raw el|e]; simpl.
  - destruct (str_truthy (strip raw)); simpl; repeat split; auto.
    intros ->. reflexivity.
  - repeat split; auto.
Qed.

(** Time stamps compare as [timedelta]s do. *)
Lemma gtb_spec (a b : Z) : (a >? b) = true <-> a > b.
Proof. rewrite Z.gtb_lt. lia. Qed.

Lemma gtb_false (a b : Z) : (a >? b) = false <-> ~ a > b.
Proof. rewrite Z.gtb_ltb, Z.ltb_ge. lia. Qed.

(** An iteration that finds the queue non-empty, phase by phase. *)
Lemma tick_drained (i : tick_input) (s : state) :
  t_queue i <> [] ->
  tick i s =
    let s1 := fst (flush_last_phrase (t_now i) s) in
    let u := update_phrase_time (t_now i) s1 in
    let c := concatenate_new_audio (t_drain i) (t_queue i) (snd u) in
    let t := transcribe_audio (t_engine i) (fst u) (fst c) in
    (fst t, snd (flush_last_phrase (t_now i) s) ++ snd c ++ snd t).
Proof.
  intros Hq. unfold tick. cbv zeta.
  destruct (flush_last_phrase (t_now i) s) as [s1 e1]. cbn [fst snd].
  destruct (t_queue i) as [|p q]; [congruence|].
  destruct (update_phrase_time (t_now i) s1) as [pc s2]. cbn [fst snd].
  destruct (concatenate_new_audio (t_drain i) (p :: q) s2) as [s3 e3].
  cbn [fst snd].
  destruct (transcribe_audio (t_engine i) pc s3) as [s4 e4].
  reflexivity.
Qed.

(** ** Segmentation worker: claims *)

(** C1 (code_bug). The client-switch branch of [__concatenate_new_audio__]
    calls [final_callback] without the guard [recent_transcription and
    current_client] that the idle flush and the transcription step use:
    the first chunk ever received emits [FinalizedPhrase("", None)], and a
    switch away from an owner whose text is empty emits
    [FinalizedPhrase("", owner)]. *)
Theorem C1_switch_finalizes_unguarded :
  finals (snd (concatenate_new_audio 0 [(1%nat, [Byte.x00])] (init 0)))
    = [("", None)] /\
  finals (snd (concatenate_new_audio 500 [(2%nat, [Byte.x01])]
                 (mkState 0 [Byte.x00] "" (Some 1%nat))))
    = [("", Some 1%nat)].
Proof. split; reflexivity. Qed.

(** C2 (counterexample). Client [1] sends at [t = 0] and again at
    [t = 1000]: the gap equals the phrase timeout, yet no iteration up to
    and including the one at [t = 1000], which ends the gap, finalizes the
    pending text ["hi"], because the boundary test is strict. *)
Lemma C2_gap_equal_to_timeout_not_finalized :
  t_now (Scenario.gap_tick 20) - t_now (Scenario.gap_tick 0) = phrase_timeout /\
  recent_transcription (fst (tick (Scenario.gap_tick 0) (init 0))) = "hi" /\
  finals (snd (worker (map Scenario.gap_tick (seq 1 20))
                 (fst (tick (Scenario.gap_tick 0) (init 0))))) = [].
Proof. repeat split; vm_compute; reflexivity. Qed.

(** C2 (amended). The silence boundary is [now - phrase_time >
    phrase_timeout] (strict); when it holds, [__update_phrase_time__] sets
    [phrase_time = now], clears the buffer and returns
    [phrase_complete = true]. An iteration at which the silence exceeds
    the timeout, with pending text from owner [c] and only chunks from [c]
    queued, emits exactly one [FinalizedPhrase] carrying that text, stamps
    [phrase_time = now], and keeps none of the audio from before the gap
    in the buffer. *)
Theorem C2_silence_boundary (i : tick_input) (s : state) (c : socket) :
  t_now i - phrase_time s > phrase_timeout ->
  recent_transcription s <> "" ->
  current_client s = Some c ->
  Forall (fun p => fst p = c) (t_queue i) ->
  (forall now s',
     update_phrase_time now s' =
       if now - phrase_time s' >? phrase_timeout
       then (true, mkState now [] (recent_transcription s') (current_client s'))
       else (false, s')) /\
  finals (snd (tick i s)) = [(recent_transcription s, Some c)] /\
  phrase_time (fst (tick i s)) = t_now i /\
  last_sample (fst (tick i s)) = List.concat (map snd (t_queue i)).
Proof.
  intros Hgap Hr Hc Hq. split.
  { intros now s'. unfold update_phrase_time.
    destruct (now - phrase_time s' >? phrase_timeout); reflexivity. }
  assert (Hf : flush_last_phrase (t_now i) s =
            (mkState (t_now i) [] "" (Some c),
             [Log ("Flush " ++ recent_transcription s)%string;
              Final (recent_transcription s) (Some c)])).
  { unfold flush_last_phrase. apply gtb_spec in Hgap. rewrite Hgap, Hc.
    destruct (str_truthy (recent_transcription s)) eqn:Ht.
    - destruct s; simpl in *; subst; reflexivity.
    - apply str_truthy_false in Ht. contradiction. }
  assert (Hu : update_phrase_time (t_now i) (mkState (t_now i) [] "" (Some c))
               = (false, mkState (t_now i) [] "" (Some c))).
  { unfold update_phrase_time. simpl. rewrite Z.sub_diag. reflexivity. }
  unfold tick. rewrite Hf. destruct (t_queue i) as [|p q] eqn:Hqi.
  - repeat split; reflexivity.
  - rewrite Hu. cbv beta match.
    rewrite (concatenate_same_client (t_drain i) c (p :: q)) by (simpl; auto).
    cbv beta match.
    destruct (transcribe_frame (t_engine i) false
                (set_client (Some c)
                   (set_last_sample
                      (last_sample (mkState (t_now i) [] "" (Some c))
                       ++ List.concat (map snd (p :: q)))
                      (mkState (t_now i) [] "" (Some c)))))
      as (Hpt & Hls & _ & Hfin).
    destruct (transcribe_audio _ _ _) as [s4 e4] eqn:Htr. simpl in *.
    rewrite Hfin by reflexivity.
    repeat split; auto.
Qed.

Lemma C2_silence_boundary_witness :
  let i := mkTick 1500 1500 [(1%nat, [Byte.x01])] (fun _ => EngText "there" 80) in
  let s := mkState 0 [Byte.x00] "hi" (Some 1%nat) in
  (forall now s',
     update_phrase_time now s' =
       if now - phrase_time s' >? phrase_timeout
       then (true, mkState now [] (recent_transcription s') (current_client s'))
       else (false, s')) /\
  finals (snd (tick i s)) = [(recent_transcription s, Some 1%nat)] /\
  phrase_time (fst (tick i s)) = t_now i /\
  last_sample (fst (tick i s)) = List.concat (map snd (t_queue i)).
Proof.
  intros i s. apply (C2_silence_boundary i s 1%nat).
  - vm_compute. reflexivity.
  - discriminate.
  - reflexivity.
  - repeat constructor.
Defined.

(** C3. The idle flush fires only when the silence exceeds the timeout,
    the recent text is non-empty and an owner is set; it then emits
    [FinalizedPhrase{recentText, currentOwner}], clears the text and the
    buffer and stamps [phrase_time = now]. After it, iterations in which
    nothing was queued never emit another [FinalizedPhrase]. *)
Theorem C3_idle_flush_at_most_once (now : Z) (s : state) :
  (finals (snd (flush_last_phrase now s)) <> [] ->
     now - phrase_time s > phrase_timeout /\
     recent_transcription s <> "" /\ current_client s <> None) /\
  (now - phrase_time s > phrase_timeout ->
   recent_transcription s <> "" -> current_client s <> None ->
     flush_last_phrase now s =
       (mkState now [] "" (current_client s),
        [Log ("Flush " ++ recent_transcription s)%string;
         Final (recent_transcription s) (current_client s)]) /\
     (forall ts, Forall (fun i => t_queue i = []) ts ->
        finals (snd (worker ts (fst (flush_last_phrase now s)))) = [])).
Proof.
  unfold flush_last_phrase. split.
  - destruct (now - phrase_time s >? phrase_timeout) eqn:Hg; [|simpl; congruence].
    destruct (str_truthy (recent_transcription s)) eqn:Hr;
      [|simpl; congruence].
    destruct (opt_truthy (current_client s)) eqn:Hc; [|simpl; congruence].
    intros _. apply gtb_spec in Hg. repeat split; auto.
    + intros E. apply str_truthy_false in E. congruence.
    + intros E. apply opt_truthy_false in E. congruence.
  - intros Hg Hr Hc. apply gtb_spec in Hg. rewrite Hg.
    destruct (str_truthy (recent_transcription s)) eqn:Er;
      [|apply str_truthy_false in Er; contradiction].
    destruct (opt_truthy (current_client s)) eqn:Ec;
      [|apply opt_truthy_false in Ec; contradiction].
    split.
    + destruct s; reflexivity.
    + intros ts Hts. simpl. rewrite worker_idle_quiet by auto. reflexivity.
Qed.

(** C4. When Whisper raises during an iteration that drained audio, the
    exception is caught and logged: the transcription step emits only the
    log line (no [TranscriptionUpdate], no [FinalizedPhrase]) and leaves
    buffer, [phrase_time] and recent text as the drain left them; the
    iteration returns normally and the loop goes on with the next one. *)
Theorem C4_transcription_error_contained (i : tick_input) (s : state)
  (rest : list tick_input) (msg : string) :
  t_queue i <> [] ->
  let s1 := fst (flush_last_phrase (t_now i) s) in
  let pc := fst (update_phrase_time (t_now i) s1) in
  let s2 := snd (update_phrase_time (t_now i) s1) in
  let s3 := fst (concatenate_new_audio (t_drain i) (t_queue i) s2) in
  let e3 := snd (concatenate_new_audio (t_drain i) (t_queue i) s2) in
  t_engine i (last_sample s3) = EngRaise msg ->
  transcribe_audio (t_engine i) pc s3
    = (s3, [Log ("Error during transcription: " ++ msg)%string]) /\
  tick i s = (s3, snd (flush_last_phrase (t_now i) s) ++ e3
                  ++ [Log ("Error during transcription: " ++ msg)%string]) /\
  worker (i :: rest) s = (fst (worker rest s3), snd (tick i s) ++ snd (worker rest s3)).
Proof.
  intros Hq. cbv zeta. intros He.
  assert (Hw : forall t, worker (i :: rest) t =
            (fst (worker rest (fst (tick i t))),
             snd (tick i t) ++ snd (worker rest (fst (tick i t))))).
  { intros t. cbn [worker]. destruct (tick i t) as [t1 e1]. cbn [fst snd].
    destruct (worker rest t1). reflexivity. }
  rewrite Hw, (tick_drained i s Hq). cbv zeta.
  rewrite (transcribe_raise _ _ _ msg He). cbn [fst snd].
  repeat split; reflexivity.
Qed.

Lemma C4_transcription_error_contained_witness :
  let i := mkTick 2000 2000 [(1%nat, [Byte.x00])] Scenario.failing_engine in
  let s := init 0 in
  let s1 := fst (flush_last_phrase (t_now i) s) in
  let pc := fst (update_phrase_time (t_now i) s1) in
  let s2 := snd (update_phrase_time (t_now i) s1) in
  let s3 := fst (concatenate_new_audio (t_drain i) (t_queue i) s2) in
  let e3 := snd (concatenate_new_audio (t_drain i) (t_queue i) s2) in
  transcribe_audio (t_engine i) pc s3
    = (s3, [Log ("Error during transcription: " ++ "cuda out of memory")%string]) /\
  tick i s = (s3, snd (flush_last_phrase (t_now i) s) ++ e3
                  ++ [Log ("Error during transcription: " ++ "cuda out of memory")%string]) /\
  worker [i] s = (fst (worker [] s3), snd (tick i s) ++ snd (worker [] s3)).
Proof.
  intros i s. apply (C4_transcription_error_contained i s [] "cuda out of memory").
  - discriminate.
  - reflexivity.
Defined.

(** ** Synthesis worker: helper lemmas *)

(** On a loaded profile, [synthesise] appends to the unbounded queue. *)
Lemma synthesise_loaded {Emb : Type} (q : list (option socket * string)) (e : Emb)
  (text : string) (c : option socket) :
  TextToSpeech.synthesise text c (TextToSpeech.mkState q (TextToSpeech.EmbLoaded e))
  = ([], Ok (TextToSpeech.mkState (q ++ [(c, text)]) (TextToSpeech.EmbLoaded e))).
Proof. reflexivity. Qed.

(** A [synthesise] call that returns has appended its task behind a
    loaded profile. *)
Lemma synthesise_appends {Emb : Type} (t : string) (c : option socket)
  (s s' : TextToSpeech.state Emb) (l : list string) :
  TextToSpeech.synthesise t c s = (l, Ok s') ->
  TextToSpeech.task_queue s' = TextToSpeech.task_queue s ++ [(c, t)] /\
  exists e, TextToSpeech.speaker_embeddings s = TextToSpeech.EmbLoaded e /\
            TextToSpeech.speaker_embeddings s' = TextToSpeech.EmbLoaded e.
Proof.
  unfold TextToSpeech.synthesise.
  destruct (TextToSpeech.speaker_embeddings s) as [| |e]; try discriminate.
  intros H. injection H as _ <-. split; [reflexivity|]. exists e. auto.
Qed.

Lemma run_app {Emb Audio : Type} (gen : string -> Emb -> outcome Audio) {CB : Type}
  (cb : Audio -> option socket -> CB -> list string * outcome CB)
  (ops1 ops2 : list (TextToSpeech.op Emb)) :
  forall w, TextToSpeech.run gen cb (ops1 ++ ops2) w =
            TextToSpeech.run gen cb ops2 (TextToSpeech.run gen cb ops1 w).
Proof. induction ops1 as [|o ops1 IH]; intros w; [reflexivity|]. apply IH. Qed.

(** Once the worker thread is gone, nothing reaches the callback any
    more, and no queued task leaves the queue. *)
Lemma run_dead {Emb Audio : Type} (gen : string -> Emb -> outcome Audio) {CB : Type}
  (cb : Audio -> option socket -> CB -> list string * outcome CB)
  (ops : list (TextToSpeech.op Emb)) :
  forall w, TextToSpeech.alive w = false ->
  let w' := TextToSpeech.run gen cb ops w in
  TextToSpeech.alive w' = false /\ TextToSpeech.cb_state w' = TextToSpeech.cb_state w /\
  incl (TextToSpeech.task_queue (TextToSpeech.model w))
       (TextToSpeech.task_queue (TextToSpeech.model w')).
Proof.
  induction ops as [|o ops IH]; intros w Ha; cbv zeta.
  - split; [exact Ha|]. split; [reflexivity | apply incl_refl].
  - cbn [TextToSpeech.run]. destruct o as [e|c t|].
    + destruct (IH (TextToSpeech.mkWorld
                      (TextToSpeech.load_speaker_embeddings e (TextToSpeech.model w))
                      (TextToSpeech.cb_state w) (TextToSpeech.alive w)) Ha)
        as (H1 & H2 & H3).
      split; [exact H1|]. split; [exact H2|]. exact H3.
    + destruct (TextToSpeech.synthesise t c (TextToSpeech.model w)) as [l [s'| |]] eqn:Hs;
        try (apply IH; exact Ha).
      destruct (IH (TextToSpeech.mkWorld s' (TextToSpeech.cb_state w)
                      (TextToSpeech.alive w)) Ha) as (H1 & H2 & H3).
      split; [exact H1|]. split; [exact H2|].
      destruct (synthesise_appends _ _ _ _ _ Hs) as [Hq _].
      intros y Hy. apply H3. cbn [TextToSpeech.model]. rewrite Hq.
      apply in_or_app. left. exact Hy.
    + rewrite Ha. apply IH. exact Ha.
Qed.

(** A worker iteration that does not return normally ends the thread:
    the task it took is lost and the rest of the queue stays there for
    good. *)
Lemma worker_fail_ends {Emb Audio : Type} (gen : string -> Emb -> outcome Audio)
  {CB : Type} (cb : Audio -> option socket -> CB -> list string * outcome CB)
  (s : TextToSpeech.state Emb) (c0 : CB) (ops : list (TextToSpeech.op Emb))
  (l : list string) (r : outcome (TextToSpeech.state Emb * CB)) :
  TextToSpeech.worker_step gen cb s c0 = (l, r) -> (forall y, r <> Ok y) ->
  let w := TextToSpeech.run gen cb (TextToSpeech.OpWorker :: ops)
             (TextToSpeech.mkWorld s c0 true) in
  TextToSpeech.alive w = false /\ TextToSpeech.cb_state w = c0 /\
  incl (tl (TextToSpeech.task_queue s)) (TextToSpeech.task_queue (TextToSpeech.model w)).
Proof.
  intros H Hr. cbv zeta. cbn [TextToSpeech.run TextToSpeech.alive TextToSpeech.model
                            TextToSpeech.cb_state].
  rewrite H. destruct r as [y| |]; [exfalso; exact (Hr y eq_refl)| |];
    exact (run_dead gen cb ops (TextToSpeech.mkWorld _ c0 false) eq_refl).
Qed.

(** Before [load_speaker_embeddings], submissions raise and worker
    iterations find nothing to do: the model stays as [__init__] left it. *)
Lemma run_unloaded {Emb Audio : Type} (gen : string -> Emb -> outcome Audio) {CB : Type}
  (cb : Audio -> option socket -> CB -> list string * outcome CB) (c0 : CB)
  (ops : list (TextToSpeech.op Emb)) :
  Forall (fun o => match o with TextToSpeech.OpLoad _ => False | _ => True end) ops ->
  TextToSpeech.run gen cb ops (TextToSpeech.start c0) = TextToSpeech.start c0.
Proof.
  induction ops as [|o ops IH]; intros H; [reflexivity|].
  inversion H as [|? ? Ho Hops]; subst.
  destruct o as [e|c t|]; [contradiction| |]; exact (IH Hops).
Qed.

(** No operation ever sets [speaker_embeddings] to [None]. *)
Lemma run_never_none {Emb Audio : Type} (gen : string -> Emb -> outcome Audio) {CB : Type}
  (cb : Audio -> option socket -> CB -> list string * outcome CB)
  (ops : list (TextToSpeech.op Emb)) :
  forall w, TextToSpeech.speaker_embeddings (TextToSpeech.model w) <> TextToSpeech.EmbNone ->
  TextToSpeech.speaker_embeddings (TextToSpeech.model (TextToSpeech.run gen cb ops w))
    <> TextToSpeech.EmbNone.
Proof.
  induction ops as [|o ops IH]; intros w Hw; [exact Hw|].
  cbn [TextToSpeech.run]. apply IH. destruct o as [e|c t|].
  - discriminate.
  - destruct (TextToSpeech.synthesise t c (TextToSpeech.model w)) as [l [s'| |]] eqn:Hs;
      try exact Hw.
    destruct (synthesise_appends _ _ _ _ _ Hs) as (_ & e & _ & He). cbn. rewrite He.
    discriminate.
  - destruct (TextToSpeech.alive w); [|exact Hw].
    unfold TextToSpeech.worker_step.
    destruct (TextToSpeech.task_queue (TextToSpeech.model w)) as [|[c t] q] eqn:Hq.
    + cbn. exact Hw.
    + destruct (TextToSpeech.synthesise_blocking gen t
                  (TextToSpeech.mkState q
                     (TextToSpeech.speaker_embeddings (TextToSpeech.model w))))
        as [l1 [a| |]]; [destruct (cb a c (TextToSpeech.cb_state w)) as [l2 [cb'| |]]| |];
        cbn; exact Hw.
Qed.

(** ** Synthesis worker: claims *)

(** C5 (code bug). The round trip is not guaranteed even when the
    synthesis engine always succeeds. Say client [c1]'s task is queued and
    dispatching audio to [c1] raises an exception other than
    [ConnectionResetError] (a broken pipe, say). If a phrase of client
    [c2] is then handed to [handle_transcription], it is queued behind
    it, the next worker iteration raises out of [handle_synthesize] and
    ends the thread, and whatever happens afterwards the phrase of [c2] is
    never dispatched: it stays in the queue and nothing more is written
    to any socket. *)
Theorem C5_phrase_lost_after_failed_dispatch {Emb Audio : Type}
  (gen : string -> Emb -> outcome Audio) (tobytes : Audio -> bytes)
  (sendall : socket -> bytes -> Server.send_result) (e : Emb)
  (c1 : option socket) (t1 : string) (c2 : socket) (t2 : string)
  (o : Server.out_state) (x : exc) (ops : list (TextToSpeech.op Emb)) :
  (forall t, exists a, gen t e = Ok a) ->
  (forall a, exists l, Server.synthesize_callback tobytes sendall a c1 o = (l, Raised x)) ->
  Server.handle_transcription t2 (Some c2)
    (TextToSpeech.mkState [(c1, t1)] (TextToSpeech.EmbLoaded e)) =
    ([("Added " ++ t2 ++ " to synthesize task queue")%string],
     Ok (TextToSpeech.mkState [(c1, t1); (Some c2, t2)] (TextToSpeech.EmbLoaded e))) /\
  let w := TextToSpeech.run gen (Server.synthesize_callback tobytes sendall)
             (TextToSpeech.OpSynthesise (Some c2) t2 :: TextToSpeech.OpWorker :: ops)
             (TextToSpeech.mkWorld (TextToSpeech.mkState [(c1, t1)] (TextToSpeech.EmbLoaded e))
                o true) in
  TextToSpeech.alive w = false /\ TextToSpeech.cb_state w = o /\
  In (Some c2, t2) (TextToSpeech.task_queue (TextToSpeech.model w)).
Proof.
  intros Hgen Hsend. split; [reflexivity|]. cbv zeta.
  cbn [TextToSpeech.run TextToSpeech.model TextToSpeech.cb_state TextToSpeech.alive].
  rewrite synthesise_loaded. cbn [app].
  destruct (Hgen t1) as [a1 Ha1]. destruct (Hsend a1) as [l Hl].
  assert (Hw : TextToSpeech.worker_step gen (Server.synthesize_callback tobytes sendall)
                 (TextToSpeech.mkState [(c1, t1); (Some c2, t2)] (TextToSpeech.EmbLoaded e)) o
               = (("synthesize : " ++ t1)%string :: l, Raised x)).
  { unfold TextToSpeech.worker_step. cbn [TextToSpeech.task_queue].
    unfold TextToSpeech.synthesise_blocking. cbn [TextToSpeech.speaker_embeddings].
    rewrite Ha1, Hl. reflexivity. }
  destruct (worker_fail_ends gen _ _ o ops _ _ Hw ltac:(discriminate)) as (H1 & H2 & H3).
  split; [exact H1|]. split; [exact H2|]. apply H3. left. reflexivity.
Qed.

Lemma C5_phrase_lost_after_failed_dispatch_witness :
  let gen := fun (_ : string) (_ : unit) => Ok (A := bytes) [Byte.x00] in
  let sendall := fun (s : socket) (_ : bytes) =>
    if Nat.eqb s 1 then Server.SendRaise (OSError "[Errno 32] Broken pipe")
    else Server.SendOk in
  let o := Server.mkOut [0%nat; 1%nat; 2%nat] [] in
  (forall t, exists a, gen t tt = Ok a) /\
  (forall a, exists l, Server.synthesize_callback (fun b => b) sendall a (Some 1%nat) o
                       = (l, Raised (OSError "[Errno 32] Broken pipe"))) /\
  (Server.handle_transcription "world" (Some 2%nat)
     (TextToSpeech.mkState [(Some 1%nat, "hello")] (TextToSpeech.EmbLoaded tt)) =
     ([("Added " ++ "world" ++ " to synthesize task queue")%string],
      Ok (TextToSpeech.mkState [(Some 1%nat, "hello"); (Some 2%nat, "world")]
            (TextToSpeech.EmbLoaded tt))) /\
   let w := TextToSpeech.run gen (Server.synthesize_callback (fun b => b) sendall)
              (TextToSpeech.OpSynthesise (Some 2%nat) "world" :: TextToSpeech.OpWorker
                 :: [TextToSpeech.OpWorker; TextToSpeech.OpWorker])
              (TextToSpeech.mkWorld
                 (TextToSpeech.mkState [(Some 1%nat, "hello")] (TextToSpeech.EmbLoaded tt))
                 o true) in
   TextToSpeech.alive w = false /\ TextToSpeech.cb_state w = o /\
   In (Some 2%nat, "world") (TextToSpeech.task_queue (TextToSpeech.model w))).
Proof.
  intros gen sendall o.
  assert (H1 : forall t, exists a, gen t tt = Ok a) by (intros t; eexists; reflexivity).
  assert (H2 : forall a, exists l, Server.synthesize_callback (fun b => b) sendall a
                                     (Some 1%nat) o
                                   = (l, Raised (OSError "[Errno 32] Broken pipe")))
    by (intros a; eexists; reflexivity).
  split; [exact H1|]. split; [exact H2|].
  exact (C5_phrase_lost_after_failed_dispatch gen (fun b => b) sendall tt (Some 1%nat)
           "hello" 2%nat "world" o (OSError "[Errno 32] Broken pipe")
           [TextToSpeech.OpWorker; TextToSpeech.OpWorker] H1 H2).
Defined.

(** C6 (code bug). Before [load_speaker_embeddings], the guard
    [self.speaker_embeddings is None] of [synthesise] cannot fire:
    [__init__] never creates the attribute, and no operation ever sets it
    to [None]. Whatever submissions and worker iterations have run, the
    model is still as [__init__] left it and the worker thread is alive;
    a phrase handed to [handle_transcription] is logged as added, and then
    reading the attribute raises an [AttributeError] instead of the
    configuration error, out of the call. *)
Theorem C6_unloaded_profile_attribute_error {Emb Audio : Type}
  (gen : string -> Emb -> outcome Audio) {CB : Type}
  (cb : Audio -> option socket -> CB -> list string * outcome CB) (c0 : CB)
  (ops : list (TextToSpeech.op Emb)) (text : string) (c : option socket) :
  Forall (fun o => match o with TextToSpeech.OpLoad _ => False | _ => True end) ops ->
  let w := TextToSpeech.run gen cb ops (TextToSpeech.start c0) in
  TextToSpeech.model w = TextToSpeech.init /\ TextToSpeech.alive w = true /\
  Server.handle_transcription text c (TextToSpeech.model w) =
    ([("Added " ++ text ++ " to synthesize task queue")%string],
     Raised (AttributeError
               "'TextToSpeechModel' object has no attribute 'speaker_embeddings'")) /\
  (forall ops', TextToSpeech.speaker_embeddings
                  (TextToSpeech.model (TextToSpeech.run gen cb ops' (TextToSpeech.start c0)))
                <> TextToSpeech.EmbNone).
Proof.
  intros Hops. cbv zeta. rewrite (run_unloaded gen cb c0 ops Hops).
  split; [reflexivity|]. split; [reflexivity|]. split; [reflexivity|].
  intros ops'. apply run_never_none. discriminate.
Qed.

Lemma C6_unloaded_profile_attribute_error_witness :
  let ops := [TextToSpeech.OpSynthesise (Emb := unit) (Some 1%nat) "hi";
              TextToSpeech.OpWorker] in
  Forall (fun o => match o with TextToSpeech.OpLoad _ => False | _ => True end) ops /\
  (let w := TextToSpeech.run (fun (_ : string) (_ : unit) => Ok tt)
              (fun (_ : unit) (_ : option socket) (k : nat) => ([], Ok k))
              ops (TextToSpeech.start 0%nat) in
   TextToSpeech.model w = TextToSpeech.init /\ TextToSpeech.alive w = true /\
   Server.handle_transcription "hello" (Some 2%nat) (TextToSpeech.model w) =
     ([("Added " ++ "hello" ++ " to synthesize task queue")%string],
      Raised (AttributeError
                "'TextToSpeechModel' object has no attribute 'speaker_embeddings'")) /\
   (forall ops', TextToSpeech.speaker_embeddings
                   (TextToSpeech.model
                      (TextToSpeech.run (fun (_ : string) (_ : unit) => Ok tt)
                         (fun (_ : unit) (_ : option socket) (k : nat) => ([], Ok k))
                         ops' (TextToSpeech.start 0%nat)))
                 <> TextToSpeech.EmbNone)).
Proof.
  intros ops.
  assert (H : Forall (fun o => match o with TextToSpeech.OpLoad _ => False | _ => True end)
                ops) by (repeat constructor).
  split; [exact H|].
  exact (C6_unloaded_profile_attribute_error (fun (_ : string) (_ : unit) => Ok tt)
           (fun (_ : unit) (_ : option socket) (k : nat) => ([], Ok k)) 0%nat ops
           "hello" (Some 2%nat) H).
Defined.

(** ** Server: helper lemmas *)

Lemma list_mem_In (x : socket) (l : list socket) : list_mem x l = true <-> In x l.
Proof.
  unfold list_mem. rewrite existsb_exists. split.
  - intros (y & Hy & E). apply Nat.eqb_eq in E. subst. exact Hy.
  - intros H. exists x. split; [exact H | apply Nat.eqb_refl].
Qed.

(** [list.remove] takes out the first occurrence and nothing else. *)
Lemma list_remove_first (x : socket) (l : list socket) :
  In x l ->
  exists l1 l2, l = l1 ++ x :: l2 /\ ~ In x l1 /\ list_remove x l = Some (l1 ++ l2).
Proof.
  induction l as [|y l IH]; intros Hin; [destruct Hin|].
  simpl. destruct (Nat.eqb x y) eqn:E.
  - apply Nat.eqb_eq in E. subst. exists [], l. simpl. auto.
  - assert (Hx : In x l).
    { destruct Hin as [->|H]; [rewrite Nat.eqb_refl in E; discriminate | exact H]. }
    destruct (IH Hx) as (l1 & l2 & -> & Hn & ->).
    exists (y :: l1), l2. simpl. repeat split; auto.
    intros [->|H]; [rewrite Nat.eqb_refl in E; discriminate | contradiction].
Qed.


(** ** Server: claims *)

(** C7 (code bug). [stream_numpy_array_audio] never looks the socket up
    in [read_list], and it only absorbs [ConnectionResetError]. For a
    socket [cs] already out of the monitored set whose [sendall] raises
    anything else (a broken pipe, say), the error escapes
    [handle_synthesize]. Run by the synthesis worker, it escapes
    [worker()] too and ends the thread, so the tasks [q] queued behind it
    are never dispatched, for any client, and nothing more is written to
    any socket. *)
Theorem C7_absent_socket_error_escapes {Emb Audio : Type}
  (gen : string -> Emb -> outcome Audio) (tobytes : Audio -> bytes)
  (sendall : socket -> bytes -> Server.send_result) (audio : Audio) (cs : socket)
  (rl : list socket) (sent : list (socket * bytes)) (x : exc) (e : Emb) (text : string)
  (q : list (option socket * string)) (ops : list (TextToSpeech.op Emb)) :
  ~ In cs rl ->
  sendall cs (tobytes audio) = Server.SendRaise x ->
  (forall m, x <> ConnectionResetError m) ->
  gen text e = Ok audio ->
  Server.handle_synthesize tobytes audio (Some cs) rl sendall =
    Server.mkDispatch rl [] [] (Some x) /\
  let w := TextToSpeech.run gen (Server.synthesize_callback tobytes sendall)
             (TextToSpeech.OpWorker :: ops)
             (TextToSpeech.mkWorld
                (TextToSpeech.mkState ((Some cs, text) :: q) (TextToSpeech.EmbLoaded e))
                (Server.mkOut rl sent) true) in
  TextToSpeech.alive w = false /\ TextToSpeech.cb_state w = Server.mkOut rl sent /\
  incl q (TextToSpeech.task_queue (TextToSpeech.model w)).
Proof.
  intros _ Hs Hx Hg.
  assert (Hd : Server.handle_synthesize tobytes audio (Some cs) rl sendall =
               Server.mkDispatch rl [] [] (Some x)).
  { unfold Server.handle_synthesize, Server.stream_numpy_array_audio. rewrite Hs.
    destruct x; try reflexivity. exfalso. exact (Hx msg eq_refl). }
  split; [exact Hd|].
  assert (Hw : TextToSpeech.worker_step gen (Server.synthesize_callback tobytes sendall)
                 (TextToSpeech.mkState ((Some cs, text) :: q) (TextToSpeech.EmbLoaded e))
                 (Server.mkOut rl sent)
               = ([("synthesize : " ++ text)%string], Raised x)).
  { unfold TextToSpeech.worker_step. cbn [TextToSpeech.task_queue].
    unfold TextToSpeech.synthesise_blocking. cbn [TextToSpeech.speaker_embeddings].
    rewrite Hg. unfold Server.synthesize_callback. cbn [Server.o_read_list].
    rewrite Hd. reflexivity. }
  exact (worker_fail_ends gen _ _ _ ops _ _ Hw ltac:(discriminate)).
Qed.

Lemma C7_absent_socket_error_escapes_witness :
  let gen := fun (_ : string) (_ : unit) => Ok (A := bytes) [Byte.x00] in
  let sendall := fun (s : socket) (_ : bytes) =>
    if Nat.eqb s 5 then Server.SendRaise (OSError "[Errno 32] Broken pipe")
    else Server.SendOk in
  ~ In 5%nat [0%nat; 3%nat] /\
  sendall 5%nat [Byte.x00] = Server.SendRaise (OSError "[Errno 32] Broken pipe") /\
  (forall m, OSError "[Errno 32] Broken pipe" <> ConnectionResetError m) /\
  gen "hello" tt = Ok [Byte.x00] /\
  (Server.handle_synthesize (fun b => b) [Byte.x00] (Some 5%nat) [0%nat; 3%nat] sendall =
     Server.mkDispatch [0%nat; 3%nat] [] [] (Some (OSError "[Errno 32] Broken pipe")) /\
   let w := TextToSpeech.run gen (Server.synthesize_callback (fun b => b) sendall)
              (TextToSpeech.OpWorker :: [TextToSpeech.OpWorker])
              (TextToSpeech.mkWorld
                 (TextToSpeech.mkState [(Some 5%nat, "hello"); (Some 3%nat, "world")]
                    (TextToSpeech.EmbLoaded tt))
                 (Server.mkOut [0%nat; 3%nat] []) true) in
   TextToSpeech.alive w = false /\
   TextToSpeech.cb_state w = Server.mkOut [0%nat; 3%nat] [] /\
   incl [(Some 3%nat, "world")] (TextToSpeech.task_queue (TextToSpeech.model w))).
Proof.
  intros gen sendall.
  assert (H1 : ~ In 5%nat [0%nat; 3%nat]) by (simpl; intuition discriminate).
  assert (H2 : sendall 5%nat [Byte.x00] = Server.SendRaise (OSError "[Errno 32] Broken pipe"))
    by reflexivity.
  assert (H3 : forall m, OSError "[Errno 32] Broken pipe" <> ConnectionResetError m)
    by discriminate.
  assert (H4 : gen "hello" tt = Ok [Byte.x00]) by reflexivity.
  split; [exact H1|]. split; [exact H2|]. split; [exact H3|]. split; [exact H4|].
  exact (C7_absent_socket_error_escapes gen (fun b => b) sendall [Byte.x00] 5%nat
           [0%nat; 3%nat] [] _ tt "hello" [(Some 3%nat, "world")]
           [TextToSpeech.OpWorker] H1 H2 H3 H4).
Defined.

(** C8. For a readable client socket [s] in the monitored set, [start]
    reads at most 4096 bytes. A non-empty read is queued as [(s, data)]
    with the set unchanged; an empty read (orderly close) or a
    [ConnectionResetError] removes [s], and only [s], from the set and
    queues nothing. *)
Theorem C8_client_readable (s : socket) (r : Server.readiness) (m : Server.mux_state) :
  In s (Server.read_list m) ->
  (forall d, r = Server.Pending d -> firstn 4096 d <> [] ->
     (List.length (firstn 4096 d) <= 4096)%nat /\
     Server.handle_client_readable s r m =
       ([], Ok (Server.mkMux (Server.read_list m)
                  (Server.data_queue m ++ [(s, firstn 4096 d)])))) /\
  (r = Server.Reset \/ r = Server.Pending [] ->
     exists l1 l2 msg,
       Server.read_list m = l1 ++ s :: l2 /\ ~ In s l1 /\
       Server.handle_client_readable s r m =
         ([msg], Ok (Server.mkMux (l1 ++ l2) (Server.data_queue m)))).
Proof.
  intros Hin. split.
  - intros d -> Hd. split; [apply firstn_le_length|].
    unfold Server.handle_client_readable.
    change (Server.recv 4096 (Server.Pending d)) with (Ok (A := bytes) (firstn 4096 d)).
    cbv beta match.
    destruct (firstn 4096 d) as [|b bs]; [contradiction|]. reflexivity.
  - destruct (list_remove_first s (Server.read_list m) Hin) as (l1 & l2 & Hl & Hn & Hr).
    intros [-> | ->]; exists l1, l2.
    + eexists. split; [exact Hl|]. split; [exact Hn|].
      unfold Server.handle_client_readable, Server.drop_socket. simpl.
      rewrite Hr. reflexivity.
    + eexists. split; [exact Hl|]. split; [exact Hn|].
      unfold Server.handle_client_readable, Server.drop_socket. simpl.
      rewrite Hr. reflexivity.
Qed.

Lemma C8_client_readable_witness :
  (forall d, Server.Pending [Byte.x00; Byte.x01] = Server.Pending d -> firstn 4096 d <> [] ->
     (List.length (firstn 4096 d) <= 4096)%nat /\
     Server.handle_client_readable 1%nat (Server.Pending [Byte.x00; Byte.x01])
       (Server.mkMux [0%nat; 1%nat; 2%nat] []) =
       ([], Ok (Server.mkMux [0%nat; 1%nat; 2%nat] ([] ++ [(1%nat, firstn 4096 d)])))) /\
  (Server.Pending [Byte.x00; Byte.x01] = Server.Reset
   \/ Server.Pending [Byte.x00; Byte.x01] = Server.Pending [] ->
     exists l1 l2 msg,
       [0%nat; 1%nat; 2%nat] = l1 ++ 1%nat :: l2 /\ ~ In 1%nat l1 /\
       Server.handle_client_readable 1%nat (Server.Pending [Byte.x00; Byte.x01])
         (Server.mkMux [0%nat; 1%nat; 2%nat] []) =
         ([msg], Ok (Server.mkMux (l1 ++ l2) []))).
Proof.
  apply (C8_client_readable 1%nat (Server.Pending [Byte.x00; Byte.x01])
           (Server.mkMux [0%nat; 1%nat; 2%nat] [])).
  simpl. auto.
Defined.

(** Successive submissions on a loaded profile, with no worker iteration
    in between, all stay queued. *)
Lemma run_synthesise_repeat {Emb Audio : Type} (gen : string -> Emb -> outcome Audio)
  {CB : Type} (cb : Audio -> option socket -> CB -> list string * outcome CB)
  (e : Emb) (c : option socket) (t : string) (k : CB) (b : bool) (n : nat) :
  forall q : list (option socket * string),
  TextToSpeech.run gen cb (repeat (TextToSpeech.OpSynthesise c t) n)
    (TextToSpeech.mkWorld (TextToSpeech.mkState q (TextToSpeech.EmbLoaded e)) k b) =
  TextToSpeech.mkWorld (TextToSpeech.mkState (q ++ repeat (c, t) n) (TextToSpeech.EmbLoaded e))
    k b.
Proof.
  induction n as [|n IH]; intros q.
  - simpl. rewrite app_nil_r. reflexivity.
  - cbn [repeat TextToSpeech.run TextToSpeech.model TextToSpeech.cb_state
         TextToSpeech.alive].
    rewrite synthesise_loaded. rewrite IH.
    rewrite <- app_assoc. reflexivity.
Qed.

(** C9 (counterexample). Whatever capacity is proposed, some sequence of
    submissions leaves more entries than that in the task queue. *)
Lemma C9_no_capacity_bound :
  ~ (exists cap : nat, forall ops : list (TextToSpeech.op unit),
       (List.length (TextToSpeech.task_queue (TextToSpeech.model
          (TextToSpeech.run (fun (_ : string) (_ : unit) => Ok tt)
             (fun (_ : unit) (_ : option socket) (k : unit) => ([], Ok k))
             ops (TextToSpeech.start tt))))
        <= cap)%nat).
Proof.
  intros [cap H].
  specialize (H (TextToSpeech.OpLoad tt
                 :: repeat (TextToSpeech.OpSynthesise None "x") (S cap))).
  cbn [TextToSpeech.run] in H.
  unfold TextToSpeech.start, TextToSpeech.load_speaker_embeddings, TextToSpeech.init in H.
  cbn [TextToSpeech.task_queue TextToSpeech.model TextToSpeech.cb_state
       TextToSpeech.alive] in H.
  rewrite run_synthesise_repeat in H. cbn [TextToSpeech.task_queue TextToSpeech.model app] in H.
  rewrite repeat_length in H. lia.
Qed.

(** C9 (amended). The task queue is a [Queue()] with [maxsize = 0]:
    [put] never blocks and always appends, so [n] submissions after the
    profile is loaded leave [n] pending entries, for every [n]. *)
Theorem C9_task_queue_unbounded {Emb Audio : Type} (gen : string -> Emb -> outcome Audio)
  {CB : Type} (cb : Audio -> option socket -> CB -> list string * outcome CB) (k : CB)
  (e : Emb) (c : option socket) (t : string) (n : nat) :
  TextToSpeech.task_queue_maxsize = 0%nat /\
  (forall (q : list (option socket * string)) x,
     queue_put TextToSpeech.task_queue_maxsize q x = Ok (q ++ [x])) /\
  List.length (TextToSpeech.task_queue (TextToSpeech.model
    (TextToSpeech.run gen cb
       (TextToSpeech.OpLoad e :: repeat (TextToSpeech.OpSynthesise c t) n)
       (TextToSpeech.start k)))) = n.
Proof.
  split; [reflexivity|]. split; [reflexivity|].
  cbn [TextToSpeech.run].
  unfold TextToSpeech.start, TextToSpeech.load_speaker_embeddings, TextToSpeech.init.
  cbn [TextToSpeech.task_queue TextToSpeech.model TextToSpeech.cb_state TextToSpeech.alive].
  rewrite run_synthesise_repeat. cbn [TextToSpeech.task_queue TextToSpeech.model app].
  apply repeat_length.
Qed.

(** C10. With a [None] socket, [stream_numpy_array_audio] only logs
    ["Error: client_socket is None"]: nothing is written, the monitored
    set is unchanged and no exception escapes, whatever the audio. *)
Theorem C10_none_socket_noop {Audio : Type} (tobytes : Audio -> bytes) (audio : Audio)
  (rl : list socket) (sendall : socket -> bytes -> Server.send_result) :
  Server.stream_numpy_array_audio tobytes audio None rl sendall =
    Server.mkDispatch rl [] ["Error: client_socket is None"] None.
Proof. reflexivity. Qed.

(** ** Further properties: helper lemmas *)

Lemma sock_neq_false (c : socket) (o : option socket) :
  sock_neq c o = false -> o = Some c.
Proof.
  destruct o as [c'|]; simpl; [|discriminate].
  destruct (Nat.eqb c c') eqn:E; simpl; [|discriminate].
  apply Nat.eqb_eq in E. subst. reflexivity.
Qed.

(** What a drain does to the event stream and to the phrase fields, in
    terms of the number of client changes it meets. *)
Lemma concatenate_summary (tnow : Z) (q : list (socket * bytes)) :
  forall s : state,
  let r := concatenate_new_audio tnow q s in
  List.length (finals (snd r)) = switches (current_client s) q /\
  recent_transcription (fst r) =
    (if Nat.eqb (switches (current_client s) q) 0
     then recent_transcription s else "") /\
  phrase_time (fst r) =
    (if Nat.eqb (switches (current_client s) q) 0 then phrase_time s else tnow) /\
  current_client (fst r) = fold_left (fun _ p => Some (fst p)) q (current_client s).
Proof.
  induction q as [|[c d] q IH]; intros s; cbv zeta.
  - simpl. repeat split; destruct (recent_transcription s); reflexivity.
  - cbn [concatenate_new_audio switches fold_left fst].
    destruct (sock_neq c (current_client s)) eqn:Hn.
    + set (s2 := set_client (Some c)
                   (set_last_sample
                      (last_sample (set_last_sample [] (set_phrase_time tnow (set_recent "" s)))
                       ++ d)%list
                      (set_last_sample [] (set_phrase_time tnow (set_recent "" s))))).
      destruct (IH s2) as (H1 & H2 & H3 & H4).
      destruct (concatenate_new_audio tnow q s2) as [s3 e3].
      cbn [fst snd] in *. rewrite finals_app. cbn [finals app List.length].
      simpl in H2, H3. rewrite H1, H2, H3, H4. simpl.
      repeat split; destruct (Nat.eqb (switches (Some c) q) 0); reflexivity.
    + set (s2 := set_client (Some c) (set_last_sample (last_sample s ++ d)%list s)).
      destruct (IH s2) as (H1 & H2 & H3 & H4).
      destruct (concatenate_new_audio tnow q s2) as [s3 e3].
      cbn [fst snd] in *. cbn [finals app]. simpl in H2, H3.
      rewrite H1, H2, H3, H4. simpl. repeat split.
Qed.

(** With no pending text the transcription step finalizes nothing. *)
Lemma transcribe_no_final (eng : bytes -> engine_result) (pc : bool) (s : state) :
  recent_transcription s = "" -> finals (snd (transcribe_audio eng pc s)) = [].
Proof.
  intros Hr. unfold transcribe_audio. rewrite Hr.
  destruct (eng (last_sample s)) as [raw el|e]; [|reflexivity].
  destruct (str_truthy (strip raw)); [|reflexivity].
  simpl. destruct pc; reflexivity.
Qed.

(** The buffer after a non-empty drain holds audio of its final owner
    only. *)
Lemma concatenate_buffer_owner (tnow : Z) (q : list (socket * bytes)) :
  forall s : state, q <> [] ->
  let r := fst (concatenate_new_audio tnow q s) in
  exists c q1 q2,
    q = q1 ++ q2 /\ q2 <> [] /\ Forall (fun p => fst p = c) q2 /\
    current_client r = Some c /\
    ((q1 = [] /\ current_client s = Some c /\
      last_sample r = last_sample s ++ List.concat (map snd q2)) \/
     last_sample r = List.concat (map snd q2)).
Proof.
  induction q as [|[c0 d0] q IH]; intros s Hq; [congruence|]. cbv zeta.
  cbn [concatenate_new_audio].
  set (s1 := if sock_neq c0 (current_client s)
             then set_last_sample [] (set_phrase_time tnow (set_recent "" s)) else s).
  assert (Hs1 : last_sample s1 = (if sock_neq c0 (current_client s) then []
                                  else last_sample s)).
  { subst s1. destruct (sock_neq c0 (current_client s)); reflexivity. }
  assert (Hev : (if sock_neq c0 (current_client s)
                 then (set_last_sample [] (set_phrase_time tnow (set_recent "" s)),
                       [Log ("Flush " ++ recent_transcription s)%string;
                        Final (recent_transcription s) (current_client s)])
                 else (s, [])) =
                (s1, if sock_neq c0 (current_client s)
                     then [Log ("Flush " ++ recent_transcription s)%string;
                           Final (recent_transcription s) (current_client s)]
                     else [])).
  { subst s1. destruct (sock_neq c0 (current_client s)); reflexivity. }
  rewrite Hev. clear Hev.
  set (s2 := set_client (Some c0) (set_last_sample (last_sample s1 ++ d0) s1)).
  destruct q as [|p q'].
  - simpl. exists c0, [], [(c0, d0)]. repeat split; try congruence.
    + repeat constructor.
    + rewrite Hs1. simpl. rewrite app_nil_r.
      destruct (sock_neq c0 (current_client s)) eqn:Hn.
      * right. reflexivity.
      * left. apply sock_neq_false in Hn. auto.
  - destruct (IH s2 ltac:(congruence)) as (c & q1 & q2 & Hsplit & Hq2 & Hall & Hc & Hb).
    cbv zeta in *.
    destruct (concatenate_new_audio tnow (p :: q') s2) as [s3 e3] eqn:Hc3.
    cbn [fst] in *.
    destruct Hb as [(-> & Hcl & Hbuf) | Hbuf].
    + simpl in Hcl. injection Hcl as <-. simpl in Hsplit.
      exists c0, [], ((c0, d0) :: q2).
      split; [simpl; rewrite Hsplit; reflexivity|].
      split; [congruence|]. split; [constructor; [reflexivity | exact Hall]|].
      split; [exact Hc|].
      * rewrite Hbuf. simpl. rewrite Hs1.
        destruct (sock_neq c0 (current_client s)) eqn:Hn.
        -- right. reflexivity.
        -- left. apply sock_neq_false in Hn. rewrite app_assoc. auto.
    + exists c, ((c0, d0) :: q1), q2.
      split; [simpl; rewrite Hsplit; reflexivity|].
      split; [exact Hq2|]. split; [exact Hall|]. split; [exact Hc|].
      right. exact Hbuf.
Qed.

(** The idle flush and the silence test move [phrase_time] only forward,
    to [now], and never change the owner. *)
Lemma flush_frame (now : Z) (s : state) :
  current_client (fst (flush_last_phrase now s)) = current_client s /\
  (phrase_time (fst (flush_last_phrase now s)) = phrase_time s \/
   (now - phrase_time s > phrase_timeout /\
    phrase_time (fst (flush_last_phrase now s)) = now)).
Proof.
  unfold flush_last_phrase.
  destruct (now - phrase_time s >? phrase_timeout) eqn:Hg; [|auto].
  apply gtb_spec in Hg.
  destruct (str_truthy (recent_transcription s) && opt_truthy (current_client s)); simpl; auto.
Qed.

Lemma update_frame (now : Z) (s : state) :
  current_client (snd (update_phrase_time now s)) = current_client s /\
  (phrase_time (snd (update_phrase_time now s)) = phrase_time s \/
   (now - phrase_time s > phrase_timeout /\
    phrase_time (snd (update_phrase_time now s)) = now)).
Proof.
  unfold update_phrase_time.
  destruct (now - phrase_time s >? phrase_timeout) eqn:Hg; [|auto].
  apply gtb_spec in Hg. simpl. auto.
Qed.

(** ** Further properties of the segmentation worker *)

(** X1. A drain emits one [FinalizedPhrase] per client change it meets;
    the recent text is cleared and [phrase_time] set to the drain's clock
    reading exactly when there was at least one change; the owner ends up
    the sender of the last chunk (unchanged for an empty drain). *)
Theorem X1_concatenate_switch_count (tnow : Z) (q : list (socket * bytes)) (s : state) :
  let r := concatenate_new_audio tnow q s in
  List.length (finals (snd r)) = switches (current_client s) q /\
  recent_transcription (fst r) =
    (if Nat.eqb (switches (current_client s) q) 0
     then recent_transcription s else "") /\
  phrase_time (fst r) =
    (if Nat.eqb (switches (current_client s) q) 0 then phrase_time s else tnow) /\
  current_client (fst r) = fold_left (fun _ p => Some (fst p)) q (current_client s).
Proof. exact (concatenate_summary tnow q s). Qed.

(** X2. After a non-empty drain the buffer holds audio of the new owner
    [c] only: the chunks of a final run sent by [c], preceded by the old
    buffer only when nothing was queued before that run and [c] already
    owned the phrase. *)
Theorem X2_buffer_single_owner (tnow : Z) (q : list (socket * bytes)) (s : state) :
  q <> [] ->
  let r := fst (concatenate_new_audio tnow q s) in
  exists c q1 q2,
    q = q1 ++ q2 /\ q2 <> [] /\ Forall (fun p => fst p = c) q2 /\
    current_client r = Some c /\
    ((q1 = [] /\ current_client s = Some c /\
      last_sample r = last_sample s ++ List.concat (map snd q2)) \/
     last_sample r = List.concat (map snd q2)).
Proof. intros Hq. exact (concatenate_buffer_owner tnow q s Hq). Qed.

Lemma X2_buffer_single_owner_witness :
  let r := fst (concatenate_new_audio 10 [(1%nat, [Byte.x00]); (2%nat, [Byte.x01])]
                  (mkState 0 [Byte.x02] "hi" (Some 1%nat))) in
  exists c q1 q2,
    [(1%nat, [Byte.x00]); (2%nat, [Byte.x01])] = q1 ++ q2 /\ q2 <> [] /\
    Forall (fun p => fst p = c) q2 /\
    current_client r = Some c /\
    ((q1 = [] /\ current_client (mkState 0 [Byte.x02] "hi" (Some 1%nat)) = Some c /\
      last_sample r = last_sample (mkState 0 [Byte.x02] "hi" (Some 1%nat))
                      ++ List.concat (map snd q2)) \/
     last_sample r = List.concat (map snd q2)).
Proof.
  apply (X2_buffer_single_owner 10 [(1%nat, [Byte.x00]); (2%nat, [Byte.x01])]
           (mkState 0 [Byte.x02] "hi" (Some 1%nat))).
  discriminate.
Defined.

(** X3. In an iteration that drains chunks, the [Phrase complete] branch
    of [__transcribe_audio__] never calls [final_callback]: when the
    silence test fires, either the idle flush has just emptied the text or
    there was no text to flush, and a drain never brings text back. The
    iteration's [FinalizedPhrase] count is thus the idle flush's plus one
    per client change. *)
Theorem X3_transcription_never_finalizes (i : tick_input) (s : state) :
  t_queue i <> [] ->
  let s1 := fst (flush_last_phrase (t_now i) s) in
  let u := update_phrase_time (t_now i) s1 in
  let c := concatenate_new_audio (t_drain i) (t_queue i) (snd u) in
  finals (snd (transcribe_audio (t_engine i) (fst u) (fst c))) = [] /\
  List.length (finals (snd (tick i s))) =
    (List.length (finals (snd (flush_last_phrase (t_now i) s)))
     + switches (current_client s) (t_queue i))%nat.
Proof.
  intros Hq. cbv zeta.
  assert (Htr : finals (snd (transcribe_audio (t_engine i)
                 (fst (update_phrase_time (t_now i) (fst (flush_last_phrase (t_now i) s))))
                 (fst (concatenate_new_audio (t_drain i) (t_queue i)
                   (snd (update_phrase_time (t_now i)
                      (fst (flush_last_phrase (t_now i) s)))))))) = []).
  { unfold flush_last_phrase.
    destruct (t_now i - phrase_time s >? phrase_timeout) eqn:Hg.
    - destruct (str_truthy (recent_transcription s) && opt_truthy (current_client s))
        eqn:Hf.
      + cbn [fst]. unfold update_phrase_time.
        cbn [phrase_time set_last_sample set_phrase_time set_recent].
        rewrite Z.sub_diag. change (0 >? phrase_timeout) with false. cbn [fst snd].
        apply transcribe_frame. reflexivity.
      + cbn [fst]. unfold update_phrase_time. rewrite Hg. cbn [fst snd].
        apply transcribe_no_final.
        destruct (concatenate_summary (t_drain i) (t_queue i)
                    (set_last_sample [] (set_phrase_time (t_now i) s)))
          as (_ & Hr & _ & _).
        rewrite Hr. cbn [current_client recent_transcription set_last_sample
                         set_phrase_time].
        destruct (t_queue i) as [|[c0 d0] q] eqn:Hqi; [congruence|].
        cbn [switches].
        destruct (sock_neq c0 (current_client s)) eqn:Hn; [reflexivity|].
        apply sock_neq_false in Hn. rewrite Hn in Hf. simpl in Hf.
        rewrite andb_true_r in Hf. apply str_truthy_false in Hf. rewrite Hf.
        destruct (switches (Some c0) q); reflexivity.
    - cbn [fst]. unfold update_phrase_time. rewrite Hg. cbn [fst snd].
      apply transcribe_frame. reflexivity. }
  split; [exact Htr|].
  rewrite (tick_drained i s Hq). cbv zeta. cbn [snd].
  rewrite !finals_app, Htr, app_nil_r, length_app.
  destruct (concatenate_summary (t_drain i) (t_queue i)
              (snd (update_phrase_time (t_now i) (fst (flush_last_phrase (t_now i) s)))))
    as (H1 & _ & _ & _).
  rewrite H1. f_equal.
  destruct (update_frame (t_now i) (fst (flush_last_phrase (t_now i) s))) as [-> _].
  destruct (flush_frame (t_now i) s) as [-> _]. reflexivity.
Qed.

Lemma X3_transcription_never_finalizes_witness :
  let i := mkTick 1500 1500 [(2%nat, [Byte.x01])] (fun _ => EngText "there" 80) in
  let s := mkState 0 [Byte.x00] "" (Some 1%nat) in
  let s1 := fst (flush_last_phrase (t_now i) s) in
  let u := update_phrase_time (t_now i) s1 in
  let c := concatenate_new_audio (t_drain i) (t_queue i) (snd u) in
  finals (snd (transcribe_audio (t_engine i) (fst u) (fst c))) = [] /\
  List.length (finals (snd (tick i s))) =
    (List.length (finals (snd (flush_last_phrase (t_now i) s)))
     + switches (current_client s) (t_queue i))%nat.
Proof.
  intros i s. apply (X3_transcription_never_finalizes i s). discriminate.
Defined.

(** X4. When the drain's clock reads no earlier than [now] and than the
    current [phrase_time], an iteration moves [phrase_time] only forward,
    and never past the drain's clock reading. *)
Theorem X4_phrase_time_monotone (i : tick_input) (s : state) :
  phrase_time s <= t_drain i -> t_now i <= t_drain i ->
  phrase_time s <= phrase_time (fst (tick i s)) <= t_drain i.
Proof.
  intros H1 H2. unfold phrase_timeout in *.
  destruct (flush_frame (t_now i) s) as [_ Hf].
  destruct (t_queue i) as [|p q] eqn:Hqi.
  - unfold tick. destruct (flush_last_phrase (t_now i) s) as [s1 e1].
    rewrite Hqi. cbn [fst] in *. unfold phrase_timeout in Hf. lia.
  - rewrite tick_drained by congruence. cbv zeta. cbn [fst].
    set (s1 := fst (flush_last_phrase (t_now i) s)) in *.
    destruct (update_frame (t_now i) s1) as [_ Hu].
    set (s2 := snd (update_phrase_time (t_now i) s1)) in *.
    destruct (concatenate_summary (t_drain i) (t_queue i) s2) as (_ & _ & Hc & _).
    destruct (transcribe_frame (t_engine i) (fst (update_phrase_time (t_now i) s1))
                (fst (concatenate_new_audio (t_drain i) (t_queue i) s2)))
      as (Ht & _ & _ & _).
    rewrite Ht, Hc. unfold phrase_timeout in *.
    destruct (Nat.eqb _ 0); lia.
Qed.

Lemma X4_phrase_time_monotone_witness :
  phrase_time (mkState 0 [] "hi" (Some 1%nat)) <=
    phrase_time (fst (tick (mkTick 1200 1210 [(2%nat, [Byte.x00])] (fun _ => EngText "yo" 5))
                          (mkState 0 [] "hi" (Some 1%nat))))
  <= t_drain (mkTick 1200 1210 [(2%nat, [Byte.x00])] (fun _ => EngText "yo" 5)).
Proof.
  apply X4_phrase_time_monotone; simpl; lia.
Defined.

(** ** Further properties of the synthesis worker *)

(** Tasks are only ever queued behind a loaded profile. *)
Lemma run_keeps_ready {Emb Audio : Type} (gen : string -> Emb -> outcome Audio)
  {CB : Type} (cb : Audio -> option socket -> CB -> list string * outcome CB)
  (ops : list (TextToSpeech.op Emb)) :
  forall w : TextToSpeech.world Emb CB,
  (TextToSpeech.task_queue (TextToSpeech.model w) = [] \/
   exists e, TextToSpeech.speaker_embeddings (TextToSpeech.model w) = TextToSpeech.EmbLoaded e) ->
  let s' := TextToSpeech.model (TextToSpeech.run gen cb ops w) in
  TextToSpeech.task_queue s' = [] \/
  exists e, TextToSpeech.speaker_embeddings s' = TextToSpeech.EmbLoaded e.
Proof.
  induction ops as [|o ops IH]; intros w Hs; [exact Hs|].
  cbv zeta. cbn [TextToSpeech.run]. apply IH.
  destruct o as [e|c t|].
  - right. exists e. reflexivity.
  - destruct (TextToSpeech.synthesise t c (TextToSpeech.model w)) as [l [s'| |]] eqn:Hq;
      try exact Hs.
    destruct (synthesise_appends _ _ _ _ _ Hq) as (_ & e & _ & He).
    right. exists e. exact He.
  - destruct (TextToSpeech.alive w); [|exact Hs].
    destruct (TextToSpeech.worker_step gen cb (TextToSpeech.model w)
                (TextToSpeech.cb_state w)) as [l r] eqn:Hw.
    unfold TextToSpeech.worker_step in Hw.
    destruct (TextToSpeech.task_queue (TextToSpeech.model w)) as [|[c t] q] eqn:Hq.
    + injection Hw as _ <-. cbn. rewrite Hq. left. reflexivity.
    + assert (Hl : exists e, TextToSpeech.speaker_embeddings (TextToSpeech.model w)
                             = TextToSpeech.EmbLoaded e)
        by (destruct Hs as [Hx|Hx]; [discriminate | exact Hx]).
      destruct Hl as [e He].
      destruct r as [[s' k]| |]; [| cbn; right; exists e; exact He
                                  | cbn; right; exists e; exact He].
      cbn [TextToSpeech.synthesise_blocking TextToSpeech.speaker_embeddings] in Hw.
      rewrite He in Hw. cbn in Hw.
      destruct (gen t e) as [a| |]; cbn in Hw; [|discriminate|discriminate].
      destruct (cb a c (TextToSpeech.cb_state w)) as [l2 [k'| |]];
        cbn in Hw; try discriminate.
      injection Hw as _ Hs' _. subst s'. cbn. right. exists e. reflexivity.
Qed.

(** X5. Whatever sequence of [load_speaker_embeddings], [synthesise] and
    worker iterations has run since [__init__], an exception raised by the
    next worker iteration is one raised by the synthesis engine or by the
    callback on the task at the head of the queue: it never comes from a
    missing or [None] profile, since a task can only be queued once the
    profile is loaded and it is never unloaded. *)
Theorem X5_tts_worker_errors_from_engine_or_callback {Emb Audio : Type}
  (gen : string -> Emb -> outcome Audio) {CB : Type}
  (cb : Audio -> option socket -> CB -> list string * outcome CB) (k : CB)
  (ops : list (TextToSpeech.op Emb)) (logs : list string) (x : exc) :
  let w := TextToSpeech.run gen cb ops (TextToSpeech.start k) in
  TextToSpeech.worker_step gen cb (TextToSpeech.model w) (TextToSpeech.cb_state w)
    = (logs, Raised x) ->
  exists c t q e,
    TextToSpeech.task_queue (TextToSpeech.model w) = (c, t) :: q /\
    TextToSpeech.speaker_embeddings (TextToSpeech.model w) = TextToSpeech.EmbLoaded e /\
    (gen t e = Raised x \/
     exists a l, gen t e = Ok a /\ cb a c (TextToSpeech.cb_state w) = (l, Raised x)).
Proof.
  cbv zeta. intros Hw.
  pose proof (run_keeps_ready gen cb ops (TextToSpeech.start k) (or_introl eq_refl)) as Hr.
  cbv zeta in Hr.
  set (w := TextToSpeech.run gen cb ops (TextToSpeech.start k)) in *.
  unfold TextToSpeech.worker_step in Hw.
  destruct (TextToSpeech.task_queue (TextToSpeech.model w)) as [|[c t] q] eqn:Hq;
    [discriminate|].
  destruct Hr as [Hr | [e He]]; [discriminate|].
  exists c, t, q, e. split; [reflexivity|]. split; [exact He|].
  cbn [TextToSpeech.synthesise_blocking TextToSpeech.speaker_embeddings] in Hw.
  rewrite He in Hw. cbn in Hw.
  destruct (gen t e) as [a| y |]; cbn in Hw; [| | discriminate].
  - right. exists a.
    destruct (cb a c (TextToSpeech.cb_state w)) as [l2 [k'| y |]]; cbn in Hw;
      try discriminate.
    injection Hw as _ <-. exists l2. auto.
  - left. injection Hw as _ <-. reflexivity.
Qed.

Lemma X5_tts_worker_errors_from_engine_or_callback_witness :
  let gen := fun (_ : string) (_ : unit) => Ok tt in
  let cb := fun (_ : unit) (_ : option socket) (_ : unit) =>
              ([], Raised (A := unit) (OSError "[Errno 32] Broken pipe")) in
  let ops := [TextToSpeech.OpLoad tt; TextToSpeech.OpSynthesise (Some 1%nat) "hi"] in
  let w := TextToSpeech.run gen cb ops (TextToSpeech.start tt) in
  TextToSpeech.worker_step gen cb (TextToSpeech.model w) (TextToSpeech.cb_state w)
    = (["synthesize : hi"], Raised (OSError "[Errno 32] Broken pipe")) /\
  exists c t q e,
    TextToSpeech.task_queue (TextToSpeech.model w) = (c, t) :: q /\
    TextToSpeech.speaker_embeddings (TextToSpeech.model w) = TextToSpeech.EmbLoaded e /\
    (gen t e = Raised (OSError "[Errno 32] Broken pipe") \/
     exists a l, gen t e = Ok a /\
       cb a c (TextToSpeech.cb_state w) = (l, Raised (OSError "[Errno 32] Broken pipe"))).
Proof.
  intros gen cb ops w.
  assert (H : TextToSpeech.worker_step gen cb (TextToSpeech.model w) (TextToSpeech.cb_state w)
                = (["synthesize : hi"], Raised (OSError "[Errno 32] Broken pipe")))
    by (vm_compute; reflexivity).
  split; [exact H|].
  exact (X5_tts_worker_errors_from_engine_or_callback gen cb tt ops _ _ H).
Defined.

(** ** Further properties of the connection loop *)

Lemma list_remove_some (x : socket) (l l' : list socket) :
  list_remove x l = Some l' ->
  incl l' l /\ (forall y, y <> x -> In y l -> In y l').
Proof.
  revert l'. induction l as [|y l IH]; intros l' H; [discriminate|].
  simpl in H. destruct (Nat.eqb x y) eqn:E.
  - injection H as <-. apply Nat.eqb_eq in E. subst. split.
    + intros z Hz. right. exact Hz.
    + intros z Hz [<-|Hin]; [congruence | exact Hin].
  - destruct (list_remove x l) as [l''|] eqn:Hr; [|discriminate].
    injection H as <-. destruct (IH l'' eq_refl) as [Hi Hk]. split.
    + intros z [<-|Hz]; [left; reflexivity | right; apply Hi; exact Hz].
    + intros z Hz [<-|Hin]; [left; reflexivity | right; apply Hk; auto].
Qed.

(** A successful [recv] either queues a non-empty chunk of at most 4096
    bytes, or removes the socket. *)
Lemma handle_client_readable_ok (s : socket) (r : Server.readiness)
  (m m1 : Server.mux_state) (logs : list string) :
  Server.handle_client_readable s r m = (logs, Ok m1) ->
  (Server.read_list m1 = Server.read_list m /\
   exists data, Server.data_queue m1 = Server.data_queue m ++ [(s, data)] /\
                (0 < List.length data <= 4096)%nat) \/
  (Server.data_queue m1 = Server.data_queue m /\
   list_remove s (Server.read_list m) = Some (Server.read_list m1)).
Proof.
  unfold Server.handle_client_readable, Server.drop_socket. destruct r as [d|].
  - change (Server.recv 4096 (Server.Pending d)) with (Ok (A := bytes) (firstn 4096 d)).
    cbv beta match.
    pose proof (firstn_le_length 4096 d) as Hlen.
    destruct (firstn 4096 d) as [|b bs] eqn:E.
    + destruct (list_remove s (Server.read_list m)) as [rl|] eqn:Hr; [|discriminate].
      intros H. injection H as _ <-. right. auto.
    + intros H. injection H as _ <-. left. split; [reflexivity|].
      exists (b :: bs). split; [reflexivity|]. simpl in *. lia.
  - cbn. destruct (list_remove s (Server.read_list m)) as [rl|] eqn:Hr; [|discriminate].
    intros H. injection H as _ <-. right. auto.
Qed.

(** X6. A pass of the [for s in readable:] loop that completes keeps the
    listening socket monitored; it only appends to the ingestion queue
    (earlier entries stay, in order), each new entry being a non-empty
    chunk of at most 4096 bytes from a client socket; and every socket it
    leaves monitored was monitored before or was returned by [accept()]
    on the listening socket during the pass. *)
Theorem X6_select_round_invariants (server : socket) (rs : list ServerLoop.ready) :
  forall (m m' : Server.mux_state) (logs : list string),
  In server (Server.read_list m) ->
  ServerLoop.select_round server rs m = (logs, Ok m') ->
  In server (Server.read_list m') /\
  (exists extra,
     Server.data_queue m' = Server.data_queue m ++ extra /\
     Forall (fun p => fst p <> server /\ (0 < List.length (snd p) <= 4096)%nat) extra) /\
  incl (Server.read_list m')
       (Server.read_list m ++
        map ServerLoop.r_accepted
          (filter (fun y => Nat.eqb (ServerLoop.r_sock y) server) rs)).
Proof.
  induction rs as [|x rs IH]; intros m m' logs Hin H.
  - simpl in H. injection H as _ <-. split; [exact Hin|]. split.
    + exists []. rewrite app_nil_r. auto.
    + rewrite app_nil_r. apply incl_refl.
  - cbn [ServerLoop.select_round] in H.
    destruct (ServerLoop.handle_readable server x m) as [l1 [m1| |]] eqn:Hh;
      try discriminate.
    destruct (ServerLoop.select_round server rs m1) as [l2 r] eqn:Hr.
    injection H as _ ->.
    assert (Hstep : In server (Server.read_list m1) /\
              (exists extra,
                 Server.data_queue m1 = Server.data_queue m ++ extra /\
                 Forall (fun p => fst p <> server /\
                                  (0 < List.length (snd p) <= 4096)%nat) extra) /\
              incl (Server.read_list m1)
                   (Server.read_list m ++
                    if Nat.eqb (ServerLoop.r_sock x) server
                    then [ServerLoop.r_accepted x] else [])).
    { unfold ServerLoop.handle_readable in Hh.
      destruct (Nat.eqb (ServerLoop.r_sock x) server) eqn:Es.
      - injection Hh as _ <-. cbn. split; [apply in_or_app; left; exact Hin|].
        split; [exists []; rewrite app_nil_r; auto | apply incl_refl].
      - apply Nat.eqb_neq in Es.
        destruct (handle_client_readable_ok _ _ _ _ _ Hh)
          as [(Hrl & data & Hdq & Hlen) | (Hdq & Hrm)].
        + rewrite Hrl, Hdq. split; [exact Hin|]. split.
          * exists [(ServerLoop.r_sock x, data)]. split; [reflexivity|].
            constructor; [split; [exact Es | exact Hlen] | constructor].
          * rewrite app_nil_r. apply incl_refl.
        + destruct (list_remove_some _ _ _ Hrm) as [Hi Hk]. split.
          * apply Hk; [intros E; apply Es; symmetry; exact E | exact Hin].
          * split; [exists []; rewrite Hdq, app_nil_r; auto|].
            rewrite app_nil_r. exact Hi. }
    destruct Hstep as (Hin1 & (ex1 & Hq1 & Hf1) & Hi1).
    destruct (IH m1 m' l2 Hin1 Hr) as (Hin2 & (ex2 & Hq2 & Hf2) & Hi2).
    split; [exact Hin2|]. split.
    + exists (ex1 ++ ex2). rewrite Hq2, Hq1, app_assoc. split; [reflexivity|].
      apply Forall_app. auto.
    + assert (Hf : map ServerLoop.r_accepted
                     (filter (fun y => Nat.eqb (ServerLoop.r_sock y) server) (x :: rs)) =
                   ((if Nat.eqb (ServerLoop.r_sock x) server
                     then [ServerLoop.r_accepted x] else []) ++
                    map ServerLoop.r_accepted
                      (filter (fun y => Nat.eqb (ServerLoop.r_sock y) server) rs))%list)
        by (simpl; destruct (Nat.eqb (ServerLoop.r_sock x) server); reflexivity).
      rewrite Hf, app_assoc.
      intros y Hy. apply Hi2 in Hy. apply in_app_or in Hy as [Hy|Hy].
      * apply in_or_app. left. apply Hi1. exact Hy.
      * apply in_or_app. right. exact Hy.
Qed.

Lemma X6_select_round_invariants_witness :
  let rs := [ServerLoop.mkReady 0%nat 7%nat Server.Reset;
             ServerLoop.mkReady 3%nat 0%nat (Server.Pending []);
             ServerLoop.mkReady 4%nat 0%nat (Server.Pending [Byte.x01])] in
  let m := Server.mkMux [0%nat; 3%nat; 4%nat; 5%nat] [(3%nat, [Byte.x00])] in
  let m' := Server.mkMux [0%nat; 4%nat; 5%nat; 7%nat]
              [(3%nat, [Byte.x00]); (4%nat, [Byte.x01])] in
  In 0%nat (Server.read_list m) /\
  ServerLoop.select_round 0%nat rs m
    = (["Connection from"; "Disconnection from"], Ok m') /\
  (In 0%nat (Server.read_list m') /\
   (exists extra,
      Server.data_queue m' = Server.data_queue m ++ extra /\
      Forall (fun p => fst p <> 0%nat /\ (0 < List.length (snd p) <= 4096)%nat) extra) /\
   incl (Server.read_list m')
        (Server.read_list m ++
         map ServerLoop.r_accepted
           (filter (fun y => Nat.eqb (ServerLoop.r_sock y) 0%nat) rs))).
Proof.
  intros rs m m'.
  assert (H1 : In 0%nat (Server.read_list m)) by (simpl; auto).
  assert (H2 : ServerLoop.select_round 0%nat rs m
                 = (["Connection from"; "Disconnection from"], Ok m'))
    by (vm_compute; reflexivity).
  split; [exact H1|]. split; [exact H2|].
  exact (X6_select_round_invariants 0%nat rs m m' _ H1 H2).
Defined.

(** ** [str.strip()] results are already stripped *)

Lemma lstrip_suffix (l : list ascii) : exists x, l = (x ++ lstrip_chars l)%list.
Proof.
  induction l as [|a l IH]; [exists []; reflexivity|].
  simpl. destruct (is_space a).
  - destruct IH as [x Hx]. exists (a :: x). simpl. f_equal. exact Hx.
  - exists []. reflexivity.
Qed.

Lemma lstrip_head (l : list ascii) :
  lstrip_chars l = [] \/
  exists a l', lstrip_chars l = a :: l' /\ is_space a = false.
Proof.
  induction l as [|a l IH]; [left; reflexivity|].
  simpl. destruct (is_space a) eqn:Ea; [exact IH|].
  right. exists a, l. auto.
Qed.

Lemma lstrip_idem (l : list ascii) : lstrip_chars (lstrip_chars l) = lstrip_chars l.
Proof.
  destruct (lstrip_head l) as [E | (a & l' & E & Ea)]; rewrite E; [reflexivity|].
  simpl. rewrite Ea. reflexivity.
Qed.

Lemma strip_idem (s : string) : strip (strip s) = strip s.
Proof.
  unfold strip. rewrite list_ascii_of_string_of_list_ascii.
  set (A := lstrip_chars (list_ascii_of_string s)).
  set (B := lstrip_chars (rev A)).
  assert (HR : lstrip_chars (rev B) = rev B).
  { destruct (lstrip_suffix (rev A)) as [x Hx]. fold B in Hx.
    assert (HA : A = (rev B ++ rev x)%list).
    { rewrite <- rev_app_distr, <- Hx, rev_involutive. reflexivity. }
    destruct (rev B) as [|a r] eqn:ER; [reflexivity|].
    destruct (lstrip_head (list_ascii_of_string s)) as [E | (a' & l' & E & Ea)];
      fold A in E; rewrite HA in E; [discriminate|].
    simpl in E. injection E as <- _. simpl. rewrite Ea. reflexivity. }
  rewrite HR, rev_involutive. unfold B at 1. rewrite lstrip_idem. reflexivity.
Qed.

Lemma str_truthy_neq (s : string) : str_truthy s = true -> s <> "".
Proof. destruct s; [discriminate | intros _ E; discriminate]. Qed.

(** The texts the worker passes to [generation_callback]. *)
Definition gen_text_ok (e : event) : Prop :=
  match e with
  | Generation _ t _ => t <> "" /\ strip t = t
  | _ => True
  end.

Lemma flush_gen_ok (now : Z) (s : state) :
  Forall gen_text_ok (snd (flush_last_phrase now s)).
Proof.
  unfold flush_last_phrase.
  destruct (now - phrase_time s >? phrase_timeout); [|constructor].
  destruct (str_truthy (recent_transcription s) && opt_truthy (current_client s));
    repeat constructor.
Qed.

Lemma concatenate_gen_ok (tnow : Z) (q : list (socket * bytes)) :
  forall s, Forall gen_text_ok (snd (concatenate_new_audio tnow q s)).
Proof.
  induction q as [|[c d] q IH]; intros s; [constructor|].
  simpl. destruct (sock_neq c (current_client s)).
  - destruct (concatenate_new_audio tnow q _) as [s3 e3] eqn:E3. simpl.
    pose proof (IH (set_client (Some c)
                   (set_last_sample (last_sample (set_last_sample []
                      (set_phrase_time tnow (set_recent "" s))) ++ d)%list
                      (set_last_sample [] (set_phrase_time tnow (set_recent "" s))))))
      as H. rewrite E3 in H. simpl in H. repeat constructor; exact H.
  - destruct (concatenate_new_audio tnow q _) as [s3 e3] eqn:E3. simpl.
    pose proof (IH (set_client (Some c) (set_last_sample (last_sample s ++ d)%list s)))
      as H. rewrite E3 in H. exact H.
Qed.

Lemma transcribe_gen_ok (eng : bytes -> engine_result) (pc : bool) (s : state) :
  Forall gen_text_ok (snd (transcribe_audio eng pc s)).
Proof.
  unfold transcribe_audio.
  destruct (eng (last_sample s)) as [raw el | err]; [|repeat constructor].
  destruct (str_truthy (strip raw)) eqn:Et; [|constructor].
  simpl. constructor.
  - split; [exact (str_truthy_neq _ Et) | apply strip_idem].
  - destruct (pc && str_truthy (recent_transcription s) && opt_truthy (current_client s));
      repeat constructor.
Qed.

Lemma tick_gen_ok (i : tick_input) (s : state) : Forall gen_text_ok (snd (tick i s)).
Proof.
  unfold tick.
  pose proof (flush_gen_ok (t_now i) s) as H1.
  destruct (flush_last_phrase (t_now i) s) as [s1 e1]. simpl in H1.
  destruct (t_queue i) as [|p q] eqn:Eq; [exact H1|].
  destruct (update_phrase_time (t_now i) s1) as [pc s2].
  pose proof (concatenate_gen_ok (t_drain i) (p :: q) s2) as H3.
  destruct (concatenate_new_audio (t_drain i) (p :: q) s2) as [s3 e3]. simpl in H3.
  pose proof (transcribe_gen_ok (t_engine i) pc s3) as H4.
  destruct (transcribe_audio (t_engine i) pc s3) as [s4 e4]. simpl in H4.
  simpl. apply Forall_app. split; [exact H1|]. apply Forall_app. auto.
Qed.

Lemma worker_gen_ok (is : list tick_input) :
  forall s, Forall gen_text_ok (snd (worker is s)).
Proof.
  induction is as [|i is IH]; intros s; [constructor|].
  simpl. pose proof (tick_gen_ok i s) as H1.
  destruct (tick i s) as [s1 e1]. simpl in H1.
  pose proof (IH s1) as H2.
  destruct (worker is s1) as [s2 e2]. simpl in H2. simpl.
  apply Forall_app. auto.
Qed.

(** X7. Whatever the engine returns and however the ticks are timed, every
    [generation_callback(add, text, time)] the worker makes carries a
    non-empty text with no leading or trailing whitespace. *)
Theorem X7_generation_text_stripped (is : list tick_input) (s : state)
  (add : bool) (text : string) (d : Z) :
  In (Generation add text d) (snd (worker is s)) ->
  text <> "" /\ strip text = text.
Proof.
  intros Hin. pose proof (worker_gen_ok is s) as H.
  rewrite Forall_forall in H. exact (H _ Hin).
Qed.

Lemma X7_generation_text_stripped_witness :
  let raw := String "031"%char (" hello" ++ String "160"%char "") in
  In (Generation false "hello" 80)
     (snd (worker [mkTick 0 0 [(1%nat, [Byte.x00])] (fun _ => EngText raw 80)]
                  (init 0))) /\
  "hello" <> "" /\ strip "hello" = "hello".
Proof.
  intros raw.
  assert (H : In (Generation false "hello" 80)
     (snd (worker [mkTick 0 0 [(1%nat, [Byte.x00])] (fun _ => EngText raw 80)]
                  (init 0)))).
  { vm_compute. tauto. }
  split; [exact H|].
  exact (X7_generation_text_stripped _ _ _ _ _ H).
Defined.

(** ** Further properties of the synthesis round trip *)

(** When [sendall] raises nothing but [ConnectionResetError],
    [handle_synthesize] returns; it only appends to the bytes written, and
    a successful send of [audio] to [sock] writes exactly that. *)
Lemma synthesize_callback_returns {Audio : Type} (tobytes : Audio -> bytes)
  (sendall : socket -> bytes -> Server.send_result) (a : Audio) (c : option socket)
  (o : Server.out_state) :
  (forall s b y, sendall s b = Server.SendRaise y -> exists m, y = ConnectionResetError m) ->
  exists l o', Server.synthesize_callback tobytes sendall a c o = (l, Ok o') /\
    exists sent, Server.o_sent o' = Server.o_sent o ++ sent /\
      (forall sock, c = Some sock -> sendall sock (tobytes a) = Server.SendOk ->
                    sent = [(sock, tobytes a)]).
Proof.
  intros Hs. unfold Server.synthesize_callback, Server.handle_synthesize,
    Server.stream_numpy_array_audio.
  destruct c as [sock|].
  - destruct (sendall sock (tobytes a)) as [|y] eqn:Es.
    + cbn. eexists _, _. split; [reflexivity|]. exists [(sock, tobytes a)].
      split; [reflexivity|]. intros s' Hs' _. injection Hs' as <-. reflexivity.
    + destruct (Hs _ _ _ Es) as [m ->].
      destruct (list_mem sock (Server.o_read_list o)) eqn:Em.
      * apply list_mem_In in Em.
        destruct (list_remove_first sock _ Em) as (l1 & l2 & _ & _ & Hr). rewrite Hr.
        cbn. eexists _, _. split; [reflexivity|]. exists [].
        split; [rewrite app_nil_r; reflexivity|].
        intros s' Hs' Hok. injection Hs' as <-. congruence.
      * cbn. eexists _, _. split; [reflexivity|]. exists [].
        split; [rewrite app_nil_r; reflexivity|].
        intros s' Hs' Hok. injection Hs' as <-. congruence.
  - cbn. eexists _, _. split; [reflexivity|]. exists [].
    split; [rewrite app_nil_r; reflexivity | discriminate].
Qed.

(** While the engine succeeds and the callback returns, one worker
    iteration per queued task works through the tasks ahead of [r]. *)
Lemma run_drain {Emb Audio : Type} (gen : string -> Emb -> outcome Audio) {CB : Type}
  (cb : Audio -> option socket -> CB -> list string * outcome CB)
  (R : CB -> CB -> Prop) (e : Emb) (r : list (option socket * string)) :
  (forall k, R k k) -> (forall k1 k2 k3, R k1 k2 -> R k2 k3 -> R k1 k3) ->
  (forall a c k, exists l k', cb a c k = (l, Ok k') /\ R k k') ->
  forall q k, Forall (fun p => exists a, gen (snd p) e = Ok a) q ->
  exists k', TextToSpeech.run gen cb (repeat TextToSpeech.OpWorker (List.length q))
               (TextToSpeech.mkWorld (TextToSpeech.mkState (q ++ r) (TextToSpeech.EmbLoaded e))
                  k true)
             = TextToSpeech.mkWorld (TextToSpeech.mkState r (TextToSpeech.EmbLoaded e)) k' true
             /\ R k k'.
Proof.
  intros Hrefl Htrans Hcb. induction q as [|[c t] q IH]; intros k Hq.
  - exists k. split; [reflexivity | apply Hrefl].
  - inversion Hq as [|? ? [a Ha] Hq']; subst. cbn [snd] in Ha.
    destruct (Hcb a c k) as (l & k1 & Hk1 & R1).
    assert (Hw : TextToSpeech.worker_step gen cb
                   (TextToSpeech.mkState ((c, t) :: q ++ r) (TextToSpeech.EmbLoaded e)) k
                 = (("synthesize : " ++ t)%string :: l,
                    Ok (TextToSpeech.mkState (q ++ r) (TextToSpeech.EmbLoaded e), k1))).
    { unfold TextToSpeech.worker_step. cbn [TextToSpeech.task_queue].
      unfold TextToSpeech.synthesise_blocking. cbn [TextToSpeech.speaker_embeddings].
      rewrite Ha, Hk1. reflexivity. }
    cbn [List.length repeat app TextToSpeech.run TextToSpeech.model TextToSpeech.cb_state
         TextToSpeech.alive].
    rewrite Hw. destruct (IH k1 Hq') as (k2 & Hrun & R2).
    exists k2. split; [exact Hrun | exact (Htrans _ _ _ R1 R2)].
Qed.

(** X8. The round trip holds when nothing on the way raises. Take a
    loaded profile, a queue [q] whose texts the engine synthesises, and
    sends that raise nothing but [ConnectionResetError]. A phrase of
    client [sock] handed over behind [q] is dispatched once the worker has
    run one iteration per queued task: the thread is still alive, the
    queue is empty, and the last bytes written are the audio of that
    phrase, to [sock], when that send succeeds. *)
Theorem X8_round_trip_when_sends_return {Emb Audio : Type}
  (gen : string -> Emb -> outcome Audio) (tobytes : Audio -> bytes)
  (sendall : socket -> bytes -> Server.send_result) (e : Emb)
  (q : list (option socket * string)) (text : string) (sock : socket) (a : Audio)
  (o : Server.out_state) :
  Forall (fun p => exists a', gen (snd p) e = Ok a') q ->
  gen text e = Ok a ->
  (forall s b y, sendall s b = Server.SendRaise y -> exists m, y = ConnectionResetError m) ->
  sendall sock (tobytes a) = Server.SendOk ->
  let w := TextToSpeech.run gen (Server.synthesize_callback tobytes sendall)
             (TextToSpeech.OpSynthesise (Some sock) text
                :: repeat TextToSpeech.OpWorker (List.length q + 1))
             (TextToSpeech.mkWorld (TextToSpeech.mkState q (TextToSpeech.EmbLoaded e)) o true) in
  TextToSpeech.alive w = true /\ TextToSpeech.task_queue (TextToSpeech.model w) = [] /\
  exists sent, Server.o_sent (TextToSpeech.cb_state w)
               = Server.o_sent o ++ sent ++ [(sock, tobytes a)].
Proof.
  intros Hq Hg Hs Hok. cbv zeta.
  cbn [TextToSpeech.run TextToSpeech.model TextToSpeech.cb_state TextToSpeech.alive].
  rewrite synthesise_loaded, repeat_app, run_app.
  destruct (run_drain gen (Server.synthesize_callback tobytes sendall)
              (fun k k' => exists sent, Server.o_sent k' = Server.o_sent k ++ sent)
              e [(Some sock, text)])
    with (q := q) (k := o) as (k1 & Hrun & sent1 & Hsent1).
  - intros k. exists []. rewrite app_nil_r. reflexivity.
  - intros k1 k2 k3 [s1 H1] [s2 H2]. exists (s1 ++ s2). rewrite H2, H1, app_assoc.
    reflexivity.
  - intros a' c k. destruct (synthesize_callback_returns tobytes sendall a' c k Hs)
      as (l & k' & Hk & sent & Hsent & _).
    exists l, k'. split; [exact Hk|]. exists sent. exact Hsent.
  - exact Hq.
  - rewrite Hrun.
    destruct (synthesize_callback_returns tobytes sendall a (Some sock) k1 Hs)
      as (l & k2 & Hk & sent2 & Hsent2 & Hlast).
    assert (Hw : TextToSpeech.worker_step gen (Server.synthesize_callback tobytes sendall)
                   (TextToSpeech.mkState [(Some sock, text)] (TextToSpeech.EmbLoaded e)) k1
                 = (("synthesize : " ++ text)%string :: l,
                    Ok (TextToSpeech.mkState [] (TextToSpeech.EmbLoaded e), k2))).
    { unfold TextToSpeech.worker_step. cbn [TextToSpeech.task_queue].
      unfold TextToSpeech.synthesise_blocking. cbn [TextToSpeech.speaker_embeddings].
      rewrite Hg, Hk. reflexivity. }
    cbn [repeat TextToSpeech.run TextToSpeech.model TextToSpeech.cb_state
         TextToSpeech.alive].
    rewrite Hw. cbn [TextToSpeech.alive TextToSpeech.model TextToSpeech.cb_state
                     TextToSpeech.task_queue].
    split; [reflexivity|]. split; [reflexivity|].
    exists sent1. rewrite Hsent2, Hsent1, (Hlast sock eq_refl Hok), app_assoc.
    reflexivity.
Qed.

Lemma X8_round_trip_when_sends_return_witness :
  let gen := fun (t : string) (_ : unit) => Ok (A := bytes) (list_byte_of_string t) in
  let sendall := fun (s : socket) (_ : bytes) =>
    if Nat.eqb s 1 then Server.SendRaise (ConnectionResetError "Connection reset by peer")
    else Server.SendOk in
  let q := [(Some 1%nat, "hola"); (None, "adios")] in
  let o := Server.mkOut [0%nat; 1%nat; 2%nat] [] in
  Forall (fun p => exists a', gen (snd p) tt = Ok a') q /\
  gen "hello" tt = Ok (list_byte_of_string "hello") /\
  (forall s b y, sendall s b = Server.SendRaise y -> exists m, y = ConnectionResetError m) /\
  sendall 2%nat (list_byte_of_string "hello") = Server.SendOk /\
  (let w := TextToSpeech.run gen (Server.synthesize_callback (fun b => b) sendall)
              (TextToSpeech.OpSynthesise (Some 2%nat) "hello"
                 :: repeat TextToSpeech.OpWorker (List.length q + 1))
              (TextToSpeech.mkWorld (TextToSpeech.mkState q (TextToSpeech.EmbLoaded tt)) o true) in
   TextToSpeech.alive w = true /\ TextToSpeech.task_queue (TextToSpeech.model w) = [] /\
   exists sent, Server.o_sent (TextToSpeech.cb_state w)
                = Server.o_sent o ++ sent ++ [(2%nat, list_byte_of_string "hello")]).
Proof.
  intros gen sendall q o.
  assert (H1 : Forall (fun p => exists a', gen (snd p) tt = Ok a') q)
    by (repeat constructor; eexists; reflexivity).
  assert (H2 : gen "hello" tt = Ok (list_byte_of_string "hello")) by reflexivity.
  assert (H3 : forall s b y, sendall s b = Server.SendRaise y ->
                             exists m, y = ConnectionResetError m).
  { intros s b y H. unfold sendall in H. destruct (Nat.eqb s 1); [|discriminate].
    injection H as <-. eexists. reflexivity. }
  assert (H4 : sendall 2%nat (list_byte_of_string "hello") = Server.SendOk) by reflexivity.
  split; [exact H1|]. split; [exact H2|]. split; [exact H3|]. split; [exact H4|].
  exact (X8_round_trip_when_sends_return gen (fun b => b) sendall tt q "hello" 2%nat
           (list_byte_of_string "hello") o H1 H2 H3 H4).
Defined.
